(** * NIELIT attendance dashboard: SettingsPage.jsx and Overview

    A shallow embedding of the two React pages of the repository
    ([LocationManager] and [AppearanceSettings] of the settings page, and
    the [Overview] dashboard) together with the properties their
    specification states about them.

    Event handlers are modelled as atomic transitions: a handler runs from
    the state its closure captured to the state after its last [set...]
    call, with the settlement of the one remote call it awaits supplied by
    a service record.  Browser built-ins the handlers call ([parseFloat],
    [Date.prototype.toDateString], [localStorage], [classList.toggle])
    are modelled after ECMAScript and the DOM; built-ins whose result
    depends on the host ([Date.parse], the local time zone adjustment,
    [Number.prototype.toString]) are section variables. *)

From Stdlib Require Import ZArith String Ascii List Floats Lia.
From stdpp Require Import gmap strings list.

Set Warnings "-inexact-float".
Local Open Scope string_scope.
Local Open Scope Z_scope.

(* ===================================================================== *)
(** * JavaScript values used by the pages                                *)
(* ===================================================================== *)

Module Js.

(** An [Error] object; only its [message] is read by the handlers. *)
Record Error := mkError { message : string }.

(** Settlement of a promise: what [await] returns or throws. *)
Inductive Outcome (A : Type) : Type :=
| Resolved (value : A)
| Rejected (reason : Error).
Arguments Resolved {A} value.
Arguments Rejected {A} reason.

(** [ToBoolean] on a value that is [null] or a string: [null] and the
    empty string are falsy, every other string is truthy. *)
Definition truthy (v : option string) : bool :=
  match v with
  | None => false
  | Some s => negb (String.eqb s "")
  end.

(** [v || d] for a value that is [null]/[undefined] or an object. *)
Definition or_default {A : Type} (v : option A) (d : A) : A :=
  match v with
  | Some a => a
  | None => d
  end.

(** Numbers are IEEE 754 binary64 values. *)
Definition number : Type := spec_float.
Definition prec : Z := 53.
Definition emax : Z := 1024.

Definition NaN : number := S754_nan.

(** The Number value of a numeric literal of the source text. *)
Definition literal (f : float) : number := Prim2SF f.

(** ** [parseFloat]

    Strings are sequences of code units below 256.  [parseFloat] trims
    leading white space, takes the longest prefix that is a
    [StrDecimalLiteral] and returns its value rounded to binary64
    (round to nearest, ties to even), or [NaN] when there is no such
    prefix. *)

Definition is_white_space (c : ascii) : bool :=
  let n := Z.of_nat (nat_of_ascii c) in
  (n =? 9) || (n =? 10) || (n =? 11) || (n =? 12) || (n =? 13)
  || (n =? 32) || (n =? 160).

Fixpoint trim_start (s : string) : string :=
  match s with
  | String c rest => if is_white_space c then trim_start rest else s
  | EmptyString => s
  end.

Definition digit_value (c : ascii) : option Z :=
  let n := Z.of_nat (nat_of_ascii c) in
  if (48 <=? n) && (n <=? 57) then Some (n - 48) else None.

(** [scan_digits s acc n] reads the longest run of decimal digits at the
    front of [s]: the result is the accumulator extended by these
    digits, [n] plus their number, and the rest of the string. *)
Fixpoint scan_digits (s : string) (acc n : Z) : Z * Z * string :=
  match s with
  | String c rest =>
      match digit_value c with
      | Some d => scan_digits rest (10 * acc + d) (n + 1)
      | None => (acc, n, s)
      end
  | EmptyString => (acc, n, s)
  end.

(** [ExponentPart]: [e] or [E], an optional sign and at least one digit.
    An incomplete exponent is not part of the prefix and counts as 0. *)
Definition scan_exponent (s : string) : Z :=
  match s with
  | String c rest =>
      if Ascii.eqb c "e" || Ascii.eqb c "E" then
        match rest with
        | String sg rest' =>
            if Ascii.eqb sg "-" then
              let '(v, n, _) := scan_digits rest' 0 0 in
              if 0 <? n then - v else 0
            else if Ascii.eqb sg "+" then
              let '(v, n, _) := scan_digits rest' 0 0 in
              if 0 <? n then v else 0
            else
              let '(v, n, _) := scan_digits rest 0 0 in
              if 0 <? n then v else 0
        | EmptyString => 0
        end
      else 0
  | EmptyString => 0
  end.

(** The binary64 value nearest to [m * 10^e], with the sign [neg]. *)
Definition round_decimal (neg : bool) (m e : Z) : number :=
  let magnitude :=
    match m with
    | Zpos p =>
        if 0 <=? e then binary_normalize prec emax (Zpos p * 10 ^ e) 0 false
        else
          match 10 ^ (- e) with
          | Zpos q =>
              SFdiv prec emax (S754_finite false p 0) (S754_finite false q 0)
          | _ => NaN
          end
    | _ => S754_zero false
    end in
  if neg then SFopp magnitude else magnitude.

Definition starts_with (p s : string) : bool :=
  String.eqb (substring 0 (String.length p) s) p.

(** [StrUnsignedDecimalLiteral] at the front of [s]. *)
Definition parse_unsigned (neg : bool) (s : string) : number :=
  if starts_with "Infinity" s then S754_infinity neg
  else
    let '(ip, ni, r1) := scan_digits s 0 0 in
    match r1 with
    | String "." r2 =>
        let '(m, nf, r3) := scan_digits r2 ip 0 in
        if (0 <? ni) || (0 <? nf)
        then round_decimal neg m (scan_exponent r3 - nf)
        else NaN
    | _ =>
        if 0 <? ni then round_decimal neg ip (scan_exponent r1) else NaN
    end.

Definition parseFloat (input : string) : number :=
  match trim_start input with
  | String "-" rest => parse_unsigned true rest
  | String "+" rest => parse_unsigned false rest
  | s => parse_unsigned false s
  end.

(** ** [Number.prototype.toFixed] *)

(** The character of a decimal digit. *)
Definition digitChar (d : Z) : ascii := ascii_of_nat (Z.to_nat (48 + d)).

(** The decimal digits of [n], most significant first, in front of
    [acc]; [fuel] bounds the number of digits. *)
Fixpoint digitsAcc (fuel : nat) (n : Z) (acc : list ascii) : list ascii :=
  match fuel with
  | O => acc
  | S k =>
      if n =? 0 then acc
      else digitsAcc k (n / 10) (digitChar (n mod 10) :: acc)
  end.

(** The decimal representation of an integer [n >= 0]; ["0"] for 0. *)
Definition decimalDigits (n : Z) : list ascii :=
  if n =? 0 then ["0"%char]
  else digitsAcc (S (Z.to_nat (Z.log2 n))) n [].

(** The integer [n] for which [n / 10^f - m * 2^e] is closest to zero,
    the larger one when there are two. *)
Definition scaledNearest (m : positive) (e : Z) (f : nat) : Z :=
  if 0 <=? e then Zpos m * 2 ^ e * 10 ^ Z.of_nat f
  else (2 * Zpos m * 10 ^ Z.of_nat f + 2 ^ (- e)) / (2 * 2 ^ (- e)).

(** [bound <= m * 2^e] *)
Definition atLeast (m : positive) (e : Z) (bound : Z) : bool :=
  if 0 <=? e then bound <=? Zpos m * 2 ^ e
  else bound * 2 ^ (- e) <=? Zpos m.

(** Steps 11.b to 11.c of [toFixed]: the digits of [n], padded with
    zeros to [f + 1] digits, with a point before the last [f]. *)
Definition fixedDigits (f : nat) (n : Z) : list ascii :=
  let m := decimalDigits n in
  if Nat.eqb f 0 then m
  else
    let k := length m in
    let m := if (k <=? f)%nat
             then (repeat "0"%char (f + 1 - k) ++ m)%list else m in
    let k := length m in
    (take (k - f) m ++ "."%char :: drop (k - f) m)%list.

Section NumberToString.
Variable Number_toString : number -> string.

(** [x.toFixed(f)] for [f] from 0 to 100 (beyond, it throws a
    [RangeError]): a value that is not finite is printed by
    [Number::toString], as is the magnitude of one that is [10^21] or
    more; any other is printed from the nearest integer to
    [|x| * 10^f], after a minus sign when [x < 0]. *)
Definition toFixed (f : nat) (x : number) : string :=
  match x with
  | S754_finite s m e =>
      let sign := if s then "-" else "" in
      if atLeast m e (10 ^ 21) then sign ++ Number_toString (SFabs x)
      else sign ++ string_of_list_ascii (fixedDigits f (scaledNearest m e f))
  | S754_zero _ => string_of_list_ascii (fixedDigits f 0)
  | _ => Number_toString x
  end.
End NumberToString.

End Js.

(* ===================================================================== *)
(** * Dates: time values and [toDateString]                              *)
(* ===================================================================== *)

Module JsDate.

(** A time value is a number of milliseconds since the epoch, or [NaN]
    ([None]), the time value of an invalid date. *)
Definition TimeValue : Type := option Z.

Definition msPerDay : Z := 86400000.

(** [Day(t)] and [WeekDay(t)] of ECMAScript; [/] and [mod] on [Z] round
    towards minus infinity, as [floor] and the modulo of the standard. *)
Definition Day (t : Z) : Z := t / msPerDay.
Definition WeekDay (t : Z) : Z := (Day t + 4) mod 7.

(** The proleptic Gregorian date of a day number, counted in 400-year
    eras of 146097 days that start on 1 March: the year, the month
    (0 for January) and the day of the month (from 1). *)
Record Civil := mkCivil { year : Z; month : Z; date : Z }.

Definition daysPerEra : Z := 146097.

Definition yearOfEra (doe : Z) : Z :=
  (doe - doe / 1460 + doe / 36524 - doe / 146096) / 365.

Definition dayOfYear (doe yoe : Z) : Z :=
  doe - (365 * yoe + yoe / 4 - yoe / 100).

Definition civilOfEraDay (era doe : Z) : Civil :=
  let yoe := yearOfEra doe in
  let doy := dayOfYear doe yoe in
  let mp := (5 * doy + 2) / 153 in
  let d := doy - (153 * mp + 2) / 5 + 1 in
  let m := if mp <? 10 then mp + 2 else mp - 10 in
  let y := yoe + era * 400 in
  mkCivil (if m <=? 1 then y + 1 else y) m d.

Definition civilFromDays (day : Z) : Civil :=
  let z := day + 719468 in
  civilOfEraDay (z / daysPerEra) (z mod daysPerEra).

(** The way back, as [MakeDay] of ECMAScript: the era and the day of the
    era of a date, and from them its day number. *)
Definition eraDayFromCivil (c : Civil) : Z * Z :=
  let y := if month c <=? 1 then year c - 1 else year c in
  let yoe := y mod 400 in
  let mp := if month c <=? 1 then month c + 10 else month c - 2 in
  let doy := (153 * mp + 2) / 5 + date c - 1 in
  (y / 400, 365 * yoe + yoe / 4 - yoe / 100 + doy).

Definition MakeDay (c : Civil) : Z :=
  let '(era, doe) := eraDayFromCivil c in
  era * daysPerEra + doe - 719468.

Definition YearFromTime (t : Z) : Z := year (civilFromDays (Day t)).
Definition MonthFromTime (t : Z) : Z := month (civilFromDays (Day t)).
Definition DateFromTime (t : Z) : Z := date (civilFromDays (Day t)).

(** What [toDateString] prints: ["Invalid Date"], or the weekday name,
    the month name, the day of the month and the year of the local
    time.  The four fields stand for the text printed from them. *)
Inductive DateString : Type :=
| InvalidDate
| DateText (weekday month date year : Z).

Definition DateString_eqb (a b : DateString) : bool :=
  match a, b with
  | InvalidDate, InvalidDate => true
  | DateText w1 m1 d1 y1, DateText w2 m2 d2 y2 =>
      (w1 =? w2) && (m1 =? m2) && (d1 =? d2) && (y1 =? y2)
  | _, _ => false
  end.

Section LocalTime.
(** The local time zone adjustment, in milliseconds, at a UTC time. *)
Variable LocalTZA : Z -> Z.

Definition LocalTime (t : Z) : Z := t + LocalTZA t.

Definition toDateString (tv : TimeValue) : DateString :=
  match tv with
  | None => InvalidDate
  | Some t =>
      let lt := LocalTime t in
      DateText (WeekDay lt) (MonthFromTime lt) (DateFromTime lt)
               (YearFromTime lt)
  end.

(** The local calendar day a time value falls on. *)
Definition localDay (t : Z) : Z := Day (LocalTime t).
End LocalTime.

(** [f] holds at the [n] integers from [start] on. *)
Fixpoint holdsFrom (f : Z -> bool) (start : Z) (n : nat) : bool :=
  match n with
  | O => true
  | S k => f start && holdsFrom f (start + 1) k
  end.

(** Every day of an era, checked one by one: the year of the era is
    below 400 and the date leads back to the day. *)
Definition eraDayChecked (doe : Z) : bool :=
  let c := civilOfEraDay 0 doe in
  let y := if month c <=? 1 then year c - 1 else year c in
  (0 <=? y) && (y <? 400) && (snd (eraDayFromCivil c) =? doe).

End JsDate.

(* ===================================================================== *)
(** * SettingsPage.jsx: [LocationManager]                                *)
(* ===================================================================== *)

Module LocationManager.
Import Js.

(** A location document of the backend; [id] is its [$id]. *)
Module Location.
Record t := mk { id : string; Latitude : number; Longitude : number }.
End Location.

(** The [locationData] object passed to the create and update calls. *)
Module LocationData.
Record t := mk { Latitude : number; Longitude : number }.
End LocationData.

(** The form fields, as typed. *)
Module FormData.
Record t := mk { Latitude : string; Longitude : string }.
Definition empty : t := mk "" "".
End FormData.

(** The values held by the component's [useState] hooks. *)
Record State := mkState {
  locations : list Location.t;
  loading : bool;
  error : option string;
  formData : FormData.t;
  editingLocationId : option string
}.

(** [useState] initial values. *)
Definition initialState : State :=
  mkState [] true None FormData.empty None.

Inductive ToastKind := ToastLoading | ToastSuccess | ToastError.
Record Toast := mkToast { kind : ToastKind; text : string }.

(** Calls to [../services/LocationService], in the order issued. *)
Inductive RemoteCall :=
| CallFetchLocations
| CallAddLocation (data : LocationData.t)
| CallUpdateLocation (locationId : string) (data : LocationData.t)
| CallDeleteLocation (locationId : string).

(** How the backend settles each call. *)
Record Service := mkService {
  fetchLocations : Outcome (option (list Location.t));
  addLocation : LocationData.t -> Outcome Location.t;
  updateLocation : string -> LocationData.t -> Outcome Location.t;
  deleteLocation : string -> Outcome unit
}.

(** The component state together with what the handlers act on outside
    it: the toaster (toasts by id, and the next fresh id) and the log of
    remote calls. *)
Record World := mkWorld {
  component : State;
  toasts : gmap nat Toast;
  nextToast : nat;
  calls : list RemoteCall
}.

Definition initialWorld : World := mkWorld initialState ∅ 0%nat [].

(** ** Handlers: state passing with exceptions *)

Definition Handler (A : Type) : Type := World -> Outcome A * World.

#[global] Instance Handler_ret : MRet Handler :=
  fun A a w => (Resolved a, w).

#[global] Instance Handler_bind : MBind Handler :=
  fun A B f m w =>
    match m w with
    | (Resolved a, w') => f a w'
    | (Rejected e, w') => (Rejected e, w')
    end.

(** [try { body } catch (err) { handler }] *)
Definition try_catch {A} (body : Handler A) (handler : Error -> Handler A)
  : Handler A :=
  fun w =>
    match body w with
    | (Rejected e, w') => handler e w'
    | r => r
    end.

(** [try { body } finally { final }] *)
Definition try_finally {A} (body : Handler A) (final : Handler unit)
  : Handler A :=
  fun w =>
    let '(r, w') := body w in
    match final w' with
    | (Resolved _, w'') => (r, w'')
    | (Rejected e, w'') => (Rejected e, w'')
    end.

(** [await call(...)]: the call is issued, and its settlement is
    returned or thrown. *)
Definition await {A} (call : RemoteCall) (settled : Outcome A) : Handler A :=
  fun w =>
    (settled, mkWorld (component w) (toasts w) (nextToast w)
                      (calls w ++ [call])).

Definition getState : Handler State := fun w => (Resolved (component w), w).

Definition modifyState (f : State -> State) : Handler unit :=
  fun w =>
    (Resolved tt, mkWorld (f (component w)) (toasts w) (nextToast w) (calls w)).

Definition setLocations (f : list Location.t -> list Location.t)
  : Handler unit :=
  modifyState (fun s =>
    mkState (f (locations s)) (loading s) (error s) (formData s)
            (editingLocationId s)).

Definition setLoading (b : bool) : Handler unit :=
  modifyState (fun s =>
    mkState (locations s) b (error s) (formData s) (editingLocationId s)).

Definition setError (e : option string) : Handler unit :=
  modifyState (fun s =>
    mkState (locations s) (loading s) e (formData s) (editingLocationId s)).

Definition setFormData (f : FormData.t -> FormData.t) : Handler unit :=
  modifyState (fun s =>
    mkState (locations s) (loading s) (error s) (f (formData s))
            (editingLocationId s)).

Definition setEditingLocationId (v : option string) : Handler unit :=
  modifyState (fun s =>
    mkState (locations s) (loading s) (error s) (formData s) v).

(** [toast.loading(text)] shows a new toast and returns its id. *)
Definition toast_loading (msg : string) : Handler nat :=
  fun w =>
    (Resolved (nextToast w),
     mkWorld (component w)
             (<[nextToast w := mkToast ToastLoading msg]> (toasts w))
             (S (nextToast w)) (calls w)).

(** [toast.success(text, { id })] and [toast.error(text, { id })]
    replace the toast with that id. *)
Definition toast_update (k : ToastKind) (msg : string) (toastId : nat)
  : Handler unit :=
  fun w =>
    (Resolved tt,
     mkWorld (component w) (<[toastId := mkToast k msg]> (toasts w))
             (nextToast w) (calls w)).

Definition toast_success := toast_update ToastSuccess.
Definition toast_error := toast_update ToastError.

(** ** The component *)

Definition loadLocations (svc : Service) : Handler unit :=
  try_finally
    (try_catch
       (setLoading true;;
        locationResponse ← await CallFetchLocations (fetchLocations svc);
        setLocations (fun _ => or_default locationResponse []))
       (fun err =>
          setError (Some ("Failed to fetch locations: " ++ message err))))
    (setLoading false).

(** [{ ...prev, [name]: value }]; the inputs are named [Latitude] and
    [Longitude], and a property of another name is never read. *)
Definition handleInputChange (name value : string) : Handler unit :=
  setFormData (fun prev =>
    if String.eqb name "Latitude"
    then FormData.mk value (FormData.Longitude prev)
    else if String.eqb name "Longitude"
    then FormData.mk (FormData.Latitude prev) value
    else prev).

(** The [locationData] object [handleSubmit] builds from the form. *)
Definition locationDataOf (formData : FormData.t) : LocationData.t :=
  LocationData.mk (parseFloat (FormData.Latitude formData))
                  (parseFloat (FormData.Longitude formData)).

Definition handleSubmit (svc : Service) : Handler unit :=
  s ← getState;
  let editingLocationId := editingLocationId s in
  let formData := formData s in
  toastId ← toast_loading
    (if truthy editingLocationId then "Updating..." else "Adding...");
  try_catch
    (let locationData := locationDataOf formData in
     let add : Handler unit :=
       newLocation ← await (CallAddLocation locationData)
                           (addLocation svc locationData);
       setLocations (fun prev => newLocation :: prev);;
       toast_success "Location added!" toastId in
     match editingLocationId with
     | Some editingId =>
         if truthy (Some editingId) then
           updated ← await (CallUpdateLocation editingId locationData)
                           (updateLocation svc editingId locationData);
           setLocations
             (map (fun loc =>
                if String.eqb (Location.id loc) editingId
                then updated else loc));;
           toast_success "Location updated!" toastId
         else add
     | None => add
     end;;
     setFormData (fun _ => FormData.empty);;
     setEditingLocationId None)
    (fun err => toast_error (message err) toastId).

Section NumberToString.
(** [Number.prototype.toString], whose last digit the standard leaves
    to the host. *)
Variable Number_toString : number -> string.

Definition handleEdit (location : Location.t) : Handler unit :=
  setEditingLocationId (Some (Location.id location));;
  setFormData (fun _ =>
    FormData.mk (Number_toString (Location.Latitude location))
                (Number_toString (Location.Longitude location))).
End NumberToString.

Definition handleCancelEdit : Handler unit :=
  setEditingLocationId None;;
  setFormData (fun _ => FormData.empty).

(** [confirmed] is the answer [window.confirm] returns. *)
Definition handleDelete (svc : Service) (confirmed : bool)
                        (locationId : string) : Handler unit :=
  if confirmed then
    toastId ← toast_loading "Deleting...";
    try_catch
      (await (CallDeleteLocation locationId) (deleteLocation svc locationId);;
       setLocations
         (List.filter
            (fun loc => negb (String.eqb (Location.id loc) locationId)));;
       toast_success "Location deleted." toastId)
      (fun err => toast_error (message err) toastId)
  else mret tt.

(** The world after a handler has run. *)
Definition run {A} (h : Handler A) (w : World) : World := snd (h w).

(** ** Geolocation *)

(** [toast.dismiss()]: every toast is taken off the screen. *)
Definition toast_dismiss : Handler unit :=
  fun w => (Resolved tt, mkWorld (component w) ∅ (nextToast w) (calls w)).

(** [toast.success(text)] and [toast.error(text)] without an id show a
    new toast. *)
Definition toast_show (k : ToastKind) (msg : string) : Handler nat :=
  fun w =>
    (Resolved (nextToast w),
     mkWorld (component w) (<[nextToast w := mkToast k msg]> (toasts w))
             (S (nextToast w)) (calls w)).

(** [position.coords] *)
Record Coordinates := mkCoordinates { latitude : number; longitude : number }.

(** [handleGetLocation] shows the loading toast and asks the browser for
    the position; the browser answers later through one of the two
    callbacks below. *)
Definition handleGetLocation : Handler unit :=
  toast_loading "Fetching current location...";; mret tt.

Section Printing.
Variable Number_toString : number -> string.

(** The success callback of [getCurrentPosition]. *)
Definition positionFound (coords : Coordinates) : Handler unit :=
  toast_dismiss;;
  toast_show ToastSuccess "Location fetched!";;
  setFormData (fun _ =>
    FormData.mk (toFixed Number_toString 6 (latitude coords))
                (toFixed Number_toString 6 (longitude coords))).

(** The error callback of [getCurrentPosition]. *)
Definition positionFailed (err : Error) : Handler unit :=
  toast_dismiss;;
  toast_show ToastError ("Error: " ++ message err);;
  mret tt.

(** ** What the component renders *)

(** A row of the saved locations: its text, and the location its edit
    and delete buttons act on. *)
Record Row := mkRow { rowText : string; rowLocation : Location.t }.

Inductive SavedLocations :=
| NoLocations
| LocationRows (rows : list Row).

Record Page := mkPage {
  heading : string;
  latitudeValue : string;
  longitudeValue : string;
  submitLabel : string;
  cancelShown : bool;
  saved : SavedLocations
}.

Inductive View :=
| Spinner
| ErrorBox (text : string)
| Form (page : Page).

Definition renderRow (location : Location.t) : Row :=
  mkRow ("Lat: " ++ Number_toString (Location.Latitude location)
         ++ ", Lon: " ++ Number_toString (Location.Longitude location))
        location.

Definition renderPage (s : State) : Page :=
  let editing := truthy (editingLocationId s) in
  mkPage (if editing then "Edit Location" else "Add New Location")
         (FormData.Latitude (formData s)) (FormData.Longitude (formData s))
         (if editing then "Update" else "Add")
         editing
         (if (0 <? length (locations s))%nat
          then LocationRows (map renderRow (locations s))
          else NoLocations).

Definition render (s : State) : View :=
  if loading s then Spinner
  else match error s with
       | Some text => if truthy (Some text) then ErrorBox text
                      else Form (renderPage s)
       | None => Form (renderPage s)
       end.

(** ** Events *)

(** What can happen to the mounted component: the user types, asks for
    the position, submits, edits, cancels or deletes, and the browser
    answers a position request. *)
Inductive Event :=
| InputChange (name value : string)
| GetLocation
| PositionFound (coords : Coordinates)
| PositionFailed (err : Error)
| Submit (svc : Service)
| Edit (location : Location.t)
| CancelEdit
| Delete (svc : Service) (confirmed : bool) (locationId : string).

Definition handle (ev : Event) : Handler unit :=
  match ev with
  | InputChange name value => handleInputChange name value
  | GetLocation => handleGetLocation
  | PositionFound coords => positionFound coords
  | PositionFailed err => positionFailed err
  | Submit svc => handleSubmit svc
  | Edit location => handleEdit Number_toString location
  | CancelEdit => handleCancelEdit
  | Delete svc confirmed locationId => handleDelete svc confirmed locationId
  end.

Fixpoint runEvents (evs : list Event) (w : World) : World :=
  match evs with
  | [] => w
  | ev :: rest => runEvents rest (run (handle ev) w)
  end.
End Printing.

End LocationManager.

(* ===================================================================== *)
(** * SettingsPage.jsx: [AppearanceSettings]                             *)
(* ===================================================================== *)

Module AppearanceSettings.
Import Js.

(** What the component reads and writes in the browser: the persisted
    key/value store, the class list of the document root, the current
    answer of [matchMedia('(prefers-color-scheme: dark)').matches], and
    whether the component's [change] listener is registered on that
    media query. *)
Record Browser := mkBrowser {
  localStorage : gmap string string;
  classList : gset string;
  prefersDark : bool;
  listening : bool
}.

(** The browser together with the component's [theme] state. *)
Record World := mkWorld {
  browser : Browser;
  theme : string
}.

Definition getItem (key : string) (b : Browser) : option string :=
  localStorage b !! key.

Definition setItem (key value : string) (b : Browser) : Browser :=
  mkBrowser (<[key := value]> (localStorage b)) (classList b)
            (prefersDark b) (listening b).

Definition removeItem (key : string) (b : Browser) : Browser :=
  mkBrowser (delete key (localStorage b)) (classList b)
            (prefersDark b) (listening b).

(** [root.classList.toggle(token, force)]: the token is present
    afterwards exactly when [force] is true. *)
Definition classList_toggle (token : string) (force : bool) (b : Browser)
  : Browser :=
  mkBrowser (localStorage b)
            (if force then {[token]} ∪ classList b
             else classList b ∖ {[token]})
            (prefersDark b) (listening b).

(** The root style flag: whether the root element has class [dark]. *)
Definition darkFlag (b : Browser) : bool :=
  bool_decide ("dark" ∈ classList b).

(** [useState(() => localStorage.getItem('theme') || 'system')] *)
Definition initialTheme (b : Browser) : string :=
  match getItem "theme" b with
  | Some t => if truthy (Some t) then t else "system"
  | None => "system"
  end.

(** The [change] listener of the effect. *)
Definition handleChange (b : Browser) : Browser :=
  if negb (truthy (getItem "theme" b))
  then classList_toggle "dark" (prefersDark b) b
  else b.

(** Mounting runs the state initialiser and the effect, which registers
    the listener; the effect's cleanup removes it. *)
Definition mount (b : Browser) : World :=
  mkWorld (mkBrowser (localStorage b) (classList b) (prefersDark b) true)
          (initialTheme b).

Definition unmount (w : World) : Browser :=
  let b := browser w in
  mkBrowser (localStorage b) (classList b) (prefersDark b) false.

(** The system colour scheme changes to [dark]: the media query takes
    its new value and its listeners run. *)
Definition systemSchemeChange (dark : bool) (w : World) : World :=
  let b := browser w in
  let b' := mkBrowser (localStorage b) (classList b) dark (listening b) in
  mkWorld (if listening b' then handleChange b' else b') (theme w).

Definition handleThemeChange (newTheme : string) (w : World) : World :=
  let root := browser w in
  if String.eqb newTheme "system" then
    let root := removeItem "theme" root in
    let isDark := prefersDark root in
    mkWorld (classList_toggle "dark" isDark root) newTheme
  else
    let root := setItem "theme" newTheme root in
    mkWorld (classList_toggle "dark" (String.eqb newTheme "dark") root)
            newTheme.

(** ** The theme buttons and the events of the component *)

(** The [mode] of the three [ThemeButton]s. *)
Inductive ThemeMode := Light | Dark | System.

Definition modeName (mode : ThemeMode) : string :=
  match mode with
  | Light => "light"
  | Dark => "dark"
  | System => "system"
  end.

(** [onClick={() => handleThemeChange(mode)}] *)
Definition clickTheme (mode : ThemeMode) (w : World) : World :=
  handleThemeChange (modeName mode) w.

(** [theme === mode]: the button drawn as selected. *)
Definition highlighted (mode : ThemeMode) (w : World) : bool :=
  String.eqb (theme w) (modeName mode).

Inductive Event :=
| Click (mode : ThemeMode)
| SystemChange (dark : bool).

Definition handle (ev : Event) (w : World) : World :=
  match ev with
  | Click mode => clickTheme mode w
  | SystemChange dark => systemSchemeChange dark w
  end.

Fixpoint runEvents (evs : list Event) (w : World) : World :=
  match evs with
  | [] => w
  | ev :: rest => runEvents rest (handle ev w)
  end.

End AppearanceSettings.

(* ===================================================================== *)
(** * The [Overview] page                                                *)
(* ===================================================================== *)

Module Overview.
Import Js.

Module Course.
Record t := mk { id : string; Programme : string }.
End Course.

(** A student document; [Course] is the related course document, or
    [None] when the attribute is [null] or missing. *)
Module Student.
Record t := mk { Status : string; Course : option Course.t }.
End Student.

Module AttendanceRecord.
Record t := mk { Status : string; Marked_at : string }.
End AttendanceRecord.

(** The object [getStudents()] resolves to; the promise may also
    resolve to [null] or [undefined], which is [None] where a response
    is expected. *)
Record StudentsResponse := mkStudentsResponse {
  documents : option (list Student.t)
}.

Record TodaysAttendance := mkTodaysAttendance {
  present : nat;
  absent : nat;
  total : nat
}.

(** An entry [{ name, value }] of a distribution. *)
Record Entry := mkEntry { name : string; value : nat }.

(** The object passed to [setStats].  [statusDistribution] is [None]
    when a status names a property inherited from [Object.prototype],
    where the values of the distribution are not counts (see
    [computeStatusDistribution]). *)
Record Stats := mkStats {
  totalStudents : nat;
  totalCourses : nat;
  todaysAttendance : TodaysAttendance;
  courseDistribution : list Entry;
  statusDistribution : option (list Entry)
}.

Record State := mkState {
  stats : option Stats;
  loading : bool;
  error : option string
}.

Definition initialState : State := mkState None true None.

(** What the component returns. *)
Inductive View :=
| Spinner
| ErrorMessage (text : string)
| Dashboard (shown : option Stats).

(** [s.Course?.$id === course.$id] *)
Definition enrolledIn (course : Course.t) (s : Student.t) : bool :=
  match Student.Course s with
  | Some c => String.eqb (Course.id c) (Course.id course)
  | None => false
  end.

Definition computeCourseDistribution
    (courses : list Course.t) (students : list Student.t) : list Entry :=
  List.filter (fun c => (0 <? value c)%nat)
    (map (fun course =>
            mkEntry (Course.Programme course)
                    (length (List.filter (enrolledIn course) students)))
         courses).

(** ** The status distribution *)

(** The names every object inherits from [Object.prototype].  Read
    through [acc[s.Status]] they give a function or an object, not a
    count, and what [+ 1] makes of it is text chosen by the host. *)
Definition inheritedNames : list string :=
  ["constructor"; "hasOwnProperty"; "isPrototypeOf"; "propertyIsEnumerable";
   "toLocaleString"; "toString"; "valueOf"; "__proto__";
   "__defineGetter__"; "__defineSetter__"; "__lookupGetter__";
   "__lookupSetter__"].

(** [acc[key] = (acc[key] || 0) + 1] on the own properties of [acc],
    kept in the order they were created. *)
Fixpoint bump (key : string) (acc : list Entry) : list Entry :=
  match acc with
  | [] => [mkEntry key 1]
  | e :: rest =>
      if String.eqb (name e) key then mkEntry key (value e + 1) :: rest
      else e :: bump key rest
  end.

(** The array index a property name denotes, if it is one: a canonical
    decimal numeral below [2^32 - 1]. *)
Definition arrayIndex (key : string) : option Z :=
  match key with
  | EmptyString => None
  | String c rest =>
      let '(v, _, r) := scan_digits key 0 0 in
      if String.eqb r "" && (negb (Ascii.eqb c "0") || String.eqb rest "")
         && (v <? 2 ^ 32 - 1)
      then Some v else None
  end.

(** Insertion of an entry among entries sorted by array index. *)
Fixpoint insertIndexed (i : Z) (e : Entry) (sorted : list (Z * Entry))
  : list (Z * Entry) :=
  match sorted with
  | [] => [(i, e)]
  | (j, e') :: rest =>
      if i <=? j then (i, e) :: sorted else (j, e') :: insertIndexed i e rest
  end.

(** [Object.entries]: the array-index names in ascending order, then
    the other names in the order they were created. *)
Fixpoint indexedEntries (acc : list Entry) : list (Z * Entry) :=
  match acc with
  | [] => []
  | e :: rest =>
      match arrayIndex (name e) with
      | Some i => insertIndexed i e (indexedEntries rest)
      | None => indexedEntries rest
      end
  end.

Definition Object_entries (acc : list Entry) : list Entry :=
  (map snd (indexedEntries acc)
   ++ List.filter (fun e => negb (bool_decide (is_Some (arrayIndex (name e)))))
        acc)%list.

(** [Object.entries(students.reduce(...)).map(...)]; [None] when a
    status is one of the inherited names. *)
Definition computeStatusDistribution (students : list Student.t)
  : option (list Entry) :=
  if existsb (fun s => bool_decide (Student.Status s ∈ inheritedNames)) students
  then None
  else Some (Object_entries
               (fold_left (fun acc s => bump (Student.Status s) acc)
                          students [])).

Section Host.
(** The local time zone adjustment and [Date.parse] of the host. *)
Variable LocalTZA : Z -> Z.
Variable Date_parse : string -> JsDate.TimeValue.

(** [new Date(r.Marked_at).toDateString() === today] *)
Definition markedToday (today : JsDate.DateString)
                       (r : AttendanceRecord.t) : bool :=
  JsDate.DateString_eqb
    (JsDate.toDateString LocalTZA
       (Date_parse (AttendanceRecord.Marked_at r)))
    today.

(** [now] is the time value of [new Date()]. *)
Definition computeTodaysAttendance
    (now : Z) (attendance : list AttendanceRecord.t) : TodaysAttendance :=
  let today := JsDate.toDateString LocalTZA (Some now) in
  let todaysRecords := List.filter (markedToday today) attendance in
  mkTodaysAttendance
    (length (List.filter
               (fun r => String.eqb (AttendanceRecord.Status r) "Present")
               todaysRecords))
    (length (List.filter
               (fun r => String.eqb (AttendanceRecord.Status r) "Absent")
               todaysRecords))
    (length todaysRecords).

(** The body of the [try] block once the three responses are there:
    the object given to [setStats], or [None] when
    [studentsResponse.documents] throws a [TypeError] because the
    response is [null] or [undefined]. *)
Definition computeStats (now : Z)
    (studentsResponse : option StudentsResponse)
    (coursesResponse : option (list Course.t))
    (attendanceResponse : option (list AttendanceRecord.t)) : option Stats :=
  match studentsResponse with
  | None => None
  | Some response =>
      let students := or_default (documents response) [] in
      let courses := or_default coursesResponse [] in
      let attendance := or_default attendanceResponse [] in
      Some (mkStats (length students) (length courses)
                    (computeTodaysAttendance now attendance)
                    (computeCourseDistribution courses students)
                    (computeStatusDistribution students))
  end.

(** [Promise.all] of the three fetches: fulfilled with the three
    values when all are, rejected otherwise. *)
Definition Promise_all {A B C}
    (a : Outcome A) (b : Outcome B) (c : Outcome C) : option (A * B * C) :=
  match a, b, c with
  | Resolved x, Resolved y, Resolved z => Some (x, y, z)
  | _, _, _ => None
  end.

Definition errorText : string :=
  "Failed to load dashboard data. Please try refreshing the page.".

(** [fetchStatistics], given how the three fetches settle.  The [try]
    block ends in [setStats], or in the [catch] block when a fetch
    rejects or the body throws. *)
Definition fetchStatistics (now : Z)
    (getStudents : Outcome (option StudentsResponse))
    (fetchCourses : Outcome (option (list Course.t)))
    (getAttendance : Outcome (option (list AttendanceRecord.t)))
    (s : State) : State :=
  let s := mkState (stats s) true (error s) in
  let attempt :=
    match Promise_all getStudents fetchCourses getAttendance with
    | Some (studentsResponse, coursesResponse, attendanceResponse) =>
        computeStats now studentsResponse coursesResponse attendanceResponse
    | None => None
    end in
  let s :=
    match attempt with
    | Some computed => mkState (Some computed) (loading s) (error s)
    | None => mkState (stats s) (loading s) (Some errorText)
    end in
  mkState (stats s) false (error s).
End Host.

Definition render (s : State) : View :=
  if loading s then Spinner
  else match error s with
       | Some text => if truthy (Some text) then ErrorMessage text
                      else Dashboard (stats s)
       | None => Dashboard (stats s)
       end.

End Overview.

(* ===================================================================== *)
(** * Vocabulary of the specification                                    *)
(* ===================================================================== *)

Section OverviewSpec.
Import Js Overview.

Variable LocalTZA : Z -> Z.
Variable Date_parse : string -> JsDate.TimeValue.

(** The record's [Marked_at] is a valid timestamp that falls on the
    local calendar day of [now]. *)
Definition markedOnDayOf (now : Z) (r : AttendanceRecord.t) : Prop :=
  JsDate.localDay LocalTZA <$> Date_parse (AttendanceRecord.Marked_at r)
  = Some (JsDate.localDay LocalTZA now).

#[global] Instance markedOnDayOf_dec now r : Decision (markedOnDayOf now r).
Proof. unfold markedOnDayOf. apply _. Defined.

End OverviewSpec.

Section AggregatesSpec.
Import Js Overview.

(** The number of students whose course reference is [course]'s
    identifier. *)
Definition enrolment (course : Course.t) (students : list Student.t) : nat :=
  length (filter (fun s => Course.id <$> Student.Course s
                           = Some (Course.id course)) students).

Definition entryOf (students : list Student.t) (course : Course.t) : Entry :=
  mkEntry (Course.Programme course) (enrolment course students).

(** The distribution as one entry per course, empty courses included. *)
Definition oneEntryPerCourse (courses : list Course.t)
    (students : list Student.t) : Prop :=
  computeCourseDistribution courses students = entryOf students <$> courses.

(** A promise that settled by rejecting. *)
Definition isRejected {A} (o : Outcome A) : Prop :=
  match o with
  | Rejected _ => True
  | Resolved _ => False
  end.

End AggregatesSpec.

Section LocationManagerSpec.
Import Js LocationManager.

(** The remote call a submit issues from component state [s], and how
    the service settles it: an update of the location being edited
    when the editing id is truthy, a create otherwise. *)
Inductive submitSettles (svc : Service) (s : State)
  : RemoteCall -> Outcome Location.t -> Prop :=
| settles_add :
    truthy (editingLocationId s) = false ->
    submitSettles svc s
      (CallAddLocation (locationDataOf (formData s)))
      (addLocation svc (locationDataOf (formData s)))
| settles_update (editingId : string) :
    editingLocationId s = Some editingId ->
    editingId ≠ "" ->
    submitSettles svc s
      (CallUpdateLocation editingId (locationDataOf (formData s)))
      (updateLocation svc editingId (locationDataOf (formData s))).

(** The list is as before and the toast the handler opened shows the
    rejection's message as an error. *)
Definition rejectionSurfaced (err : Error) (w w' : World) : Prop :=
  locations (component w') = locations (component w)
  ∧ toasts w' !! nextToast w = Some (mkToast ToastError (message err)).

Section EditingSpec.
Variable Number_toString : number -> string.

(** Editing [location] fills the form with its stored coordinates
    and records its identifier; the submit that follows calls update
    with that identifier, and when the call resolves every entry with
    that identifier is replaced by the returned record. *)
Definition editThenSubmitUpdates (svc : Service) (w : World)
    (location : Location.t) : Prop :=
  let editingId := Location.id location in
  let w1 := run (handleEdit Number_toString location) w in
  let w2 := run (handleSubmit svc) w1 in
  let data := locationDataOf (formData (component w1)) in
  formData (component w1)
    = FormData.mk (Number_toString (Location.Latitude location))
                  (Number_toString (Location.Longitude location))
  ∧ editingLocationId (component w1) = Some editingId
  ∧ calls w2 = (calls w ++ [CallUpdateLocation editingId data])%list
  ∧ ∀ updated,
      updateLocation svc editingId data = Resolved updated ->
      locations (component w2)
      = (fun loc => if decide (Location.id loc = editingId)
                    then updated else loc) <$> locations (component w).

End EditingSpec.

End LocationManagerSpec.

Section AppearanceSpec.
Import Js AppearanceSettings.

(** The listener follows the system exactly when no theme is persisted,
    and leaves the flag alone when one is. *)
Definition listenerFollowsSystemIffUnset (dark : bool) (w : World) : Prop :=
  let w' := systemSchemeChange dark w in
  (localStorage (browser w) !! "theme" = None ->
   darkFlag (browser w') = dark)
  ∧ (is_Some (localStorage (browser w) !! "theme") ->
     darkFlag (browser w') = darkFlag (browser w)).

(** The persisted preference as the specification has it: the key
    [theme] is absent, or holds ["light"] or ["dark"]. *)
Definition themeStore (b : Browser) : Prop :=
  localStorage b !! "theme" = None
  ∨ localStorage b !! "theme" = Some "light"
  ∨ localStorage b !! "theme" = Some "dark".

End AppearanceSpec.

Section NumeralSpec.
Import Js.

(** The number a list of digit characters denotes, continuing [acc]. *)
Fixpoint numeral (l : list ascii) (acc : Z) : Z :=
  match l with
  | [] => acc
  | c :: l' => numeral l' (10 * acc + default 0 (digit_value c))
  end.

Definition isDigit (c : ascii) : Prop := is_Some (digit_value c).

(** What ends a run of digits: the end of the text or another character. *)
Definition endsDigits (r : list ascii) : Prop :=
  match r with
  | [] => True
  | c :: _ => digit_value c = None
  end.

(** [x] below [10^21] in magnitude: what [toFixed] prints digit by digit. *)
Definition fixable (x : number) : Prop :=
  match x with
  | S754_finite _ m e => atLeast m e (10 ^ 21) = false
  | S754_zero _ => True
  | _ => False
  end.

(** The binary64 value nearest to [x] rounded to [f] decimals. *)
Definition roundedTo (f : nat) (x : number) : number :=
  match x with
  | S754_finite s m e => round_decimal s (scaledNearest m e f) (- Z.of_nat f)
  | S754_zero _ => S754_zero false
  | _ => x
  end.

End NumeralSpec.

Section EventsSpec.
Import Js LocationManager.

(** The events that call the backend. *)
Definition isMutation (ev : Event) : bool :=
  match ev with
  | Submit _ => true
  | Delete _ confirmed _ => confirmed
  | _ => false
  end.

(** A backend that rejects whatever it is asked. *)
Definition rejectsAll (svc : Service) : Prop :=
  (∀ data, isRejected (addLocation svc data))
  ∧ (∀ locationId data, isRejected (updateLocation svc locationId data))
  ∧ (∀ locationId, isRejected (deleteLocation svc locationId)).

Definition offlineEvent (ev : Event) : Prop :=
  match ev with
  | Submit svc => rejectsAll svc
  | Delete svc _ _ => rejectsAll svc
  | _ => True
  end.

(** Typing two coordinates and submitting them to [svc], which answers
    the create call with [returned]. *)
Record Addition := mkAddition {
  typedLatitude : string;
  typedLongitude : string;
  additionService : Service;
  additionReturned : Location.t
}.

Definition additionEvents (a : Addition) : list Event :=
  [InputChange "Latitude" (typedLatitude a);
   InputChange "Longitude" (typedLongitude a);
   Submit (additionService a)].

Definition additionResolves (a : Addition) : Prop :=
  addLocation (additionService a)
    (locationDataOf (FormData.mk (typedLatitude a) (typedLongitude a)))
  = Resolved (additionReturned a).

End EventsSpec.

Section ThemeSpec.
Import Js AppearanceSettings.

(** Whether the page should be dark: by the persisted theme when there
    is a non-empty one, by the system otherwise. *)
Definition effectiveDark (b : Browser) : bool :=
  match getItem "theme" b with
  | Some persisted =>
      if truthy (Some persisted) then String.eqb persisted "dark"
      else prefersDark b
  | None => prefersDark b
  end.

(** The root flag shows the effective theme. *)
Definition inSync (b : Browser) : Prop := darkFlag b = effectiveDark b.

End ThemeSpec.

Section StatusSpec.
Import Js Overview.

(** The number of students with a given status. *)
Definition statusCount (status : string) (students : list Student.t) : nat :=
  length (filter (fun s => Student.Status s = status) students).

(** The count recorded under a name, 0 when there is none. *)
Fixpoint recorded (key : string) (acc : list Entry) : nat :=
  match acc with
  | [] => 0
  | e :: rest => if String.eqb (name e) key then value e else recorded key rest
  end.

(** The accumulator after the [reduce]. *)
Definition tally (students : list Student.t) : list Entry :=
  fold_left (fun acc s => bump (Student.Status s) acc) students [].

(** A student whose course reference is the identifier of one of the
    courses. *)
Definition enrolledInListed (courses : list Course.t) (s : Student.t) : bool :=
  existsb (fun course => enrolledIn course s) courses.

End StatusSpec.

(* ===================================================================== *)
(** * Hosts, services and states for concrete runs                       *)
(* ===================================================================== *)

(** A host: Indian Standard Time (UTC+05:30), and
    [Date.parse] on the three ISO timestamps used below. *)
Definition sampleTZA : Z -> Z := fun _ => 19800000.

Definition sampleParse (s : string) : JsDate.TimeValue :=
  if String.eqb s "2026-11-03T04:30:00.000+00:00" then Some 1793680200000
  else if String.eqb s "2026-11-03T09:00:00.000+00:00" then Some 1793696400000
  else if String.eqb s "2026-11-02T05:00:00.000+00:00" then Some 1793595600000
  else None.

(** 2026-11-03T07:00:00Z *)
Definition sampleNow : Z := 1793689200000.

Module Sample.
Import Js LocationManager.

Definition delhi : Location.t :=
  Location.mk "loc-1" (literal 28.6139) (literal 77.209).
Definition imphal : Location.t :=
  Location.mk "loc-2" (literal 24.817) (literal 93.9368).

(** A location document with an empty [$id]. *)
Definition unnamed : Location.t :=
  Location.mk "" (literal 12.34) (literal 56.78).

(** [Number.prototype.toString] on the coordinates above. *)
Definition Number_toString (x : number) : string :=
  if SFeqb x (literal 28.6139) then "28.6139"
  else if SFeqb x (literal 77.209) then "77.209"
  else if SFeqb x (literal 24.817) then "24.817"
  else if SFeqb x (literal 93.9368) then "93.9368"
  else if SFeqb x (literal 12.34) then "12.34"
  else if SFeqb x (literal 56.78) then "56.78"
  else "NaN".

Definition offline : Error := mkError "Network request failed".

(** A backend that rejects every call. *)
Definition offlineService : Service :=
  mkService (Rejected offline) (fun _ => Rejected offline)
            (fun _ _ => Rejected offline) (fun _ => Rejected offline).

(** A backend that stores what it is sent. *)
Definition storingService : Service :=
  mkService
    (Resolved (Some [delhi; imphal]))
    (fun data =>
       Resolved (Location.mk "loc-3" (LocationData.Latitude data)
                             (LocationData.Longitude data)))
    (fun locationId data =>
       Resolved (Location.mk locationId (LocationData.Latitude data)
                             (LocationData.Longitude data)))
    (fun _ => Resolved tt).

Definition loaded (l : list Location.t) (form : FormData.t) : World :=
  mkWorld (mkState l false None form None) ∅ 0%nat [].

Definition listed : World := loaded [delhi; imphal] FormData.empty.
Definition typed : World :=
  loaded [delhi; imphal] (FormData.mk "12.34" "56.78").
End Sample.

(** Scenarios for the location manager. *)
Module LocationScenario.
Import Js LocationManager Sample.

(** The loaded list with the second location opened for editing. *)
Definition editingImphal : World :=
  run (handleEdit Number_toString imphal) listed.

(** What [storingService] answers to the update of that form. *)
Definition updatedImphal : Location.t :=
  Location.mk "loc-2" (literal 24.817) (literal 93.9368).

Definition offlineTrace : list Event :=
  [InputChange "Latitude" "12.34"; Submit offlineService; Edit delhi;
   Submit offlineService; Delete offlineService true "loc-1"; CancelEdit].

Definition twoAdditions : list Addition :=
  [mkAddition "12.34" "56.78" storingService
     (Location.mk "loc-3" (literal 12.34) (literal 56.78));
   mkAddition "24.817" "93.9368" storingService
     (Location.mk "loc-3" (literal 24.817) (literal 93.9368))].

(** A position fix with more than six decimals. *)
Definition positionFix : Coordinates :=
  mkCoordinates (literal 24.8170004) (literal 93.93680049).
End LocationScenario.

(** Scenarios for the theme settings. *)
Module ThemeScenario.
Import AppearanceSettings.

(** A browser with nothing persisted, on a dark system. *)
Definition freshBrowser : Browser := mkBrowser ∅ ∅ true false.

Definition themeTrace : list Event :=
  [SystemChange false; Click Dark; SystemChange true; Click System;
   SystemChange false].
End ThemeScenario.

(** Scenarios for the overview. *)
Module OverviewScenario.
Import Overview.

Definition bca : Course.t := Course.mk "c1" "BCA".
Definition olevel : Course.t := Course.mk "c2" "O Level".

Definition students : list Student.t :=
  [Student.mk "Active" (Some bca); Student.mk "Inactive" (Some olevel);
   Student.mk "Active" None; Student.mk "Active" (Some bca)].
End OverviewScenario.

(* ===================================================================== *)
(** * Properties of dates                                                *)
(* ===================================================================== *)

Section DateFacts.
Import JsDate.

Lemma holdsFrom_spec (f : Z -> bool) (n : nat) :
  forall start z,
    holdsFrom f start n = true ->
    start <= z < start + Z.of_nat n -> f z = true.
Proof.
  induction n as [|k IH]; intros start z Hall Hz; [lia|].
  cbn [holdsFrom] in Hall. apply andb_prop in Hall as [Hhere Hrest].
  destruct (Z.eq_dec z start) as [->|Hne]; [assumption|].
  apply (IH (start + 1)); [assumption | lia].
Qed.

Lemma all_era_days_checked :
  holdsFrom eraDayChecked 0 (Z.to_nat daysPerEra) = true.
Proof. vm_cast_no_check (eq_refl true). Qed.

Lemma era_day_checked (doe : Z) :
  0 <= doe < daysPerEra -> eraDayChecked doe = true.
Proof.
  intros Hdoe.
  apply (holdsFrom_spec _ _ 0 doe all_era_days_checked).
  rewrite Z2Nat.id by (unfold daysPerEra; lia). lia.
Qed.

(** Shifting the era shifts the year by 400 and nothing else. *)
Lemma civilOfEraDay_era (era doe : Z) :
  civilOfEraDay era doe =
  let c := civilOfEraDay 0 doe in
  mkCivil (year c + era * 400) (month c) (date c).
Proof.
  unfold civilOfEraDay. cbn [year month date].
  destruct (_ <=? 1); f_equal; lia.
Qed.

Lemma eraDayFromCivil_era (era y m d : Z) :
  eraDayFromCivil (mkCivil (y + era * 400) m d) =
  let '(e, doe) := eraDayFromCivil (mkCivil y m d) in (e + era, doe).
Proof.
  unfold eraDayFromCivil. cbn [year month date].
  destruct (m <=? 1).
  - replace (y + era * 400 - 1) with (y - 1 + era * 400) by lia.
    rewrite Z.div_add, Z.mod_add by lia. reflexivity.
  - rewrite Z.div_add, Z.mod_add by lia. reflexivity.
Qed.

Lemma eraDayFromCivil_civilOfEraDay (era doe : Z) :
  0 <= doe < daysPerEra ->
  eraDayFromCivil (civilOfEraDay era doe) = (era, doe).
Proof.
  intros Hdoe. pose proof (era_day_checked doe Hdoe) as Hc.
  unfold eraDayChecked in Hc.
  rewrite civilOfEraDay_era. cbv zeta.
  destruct (civilOfEraDay 0 doe) as [y m d] eqn:Hciv.
  cbn [year month date] in *.
  rewrite eraDayFromCivil_era.
  apply andb_prop in Hc as [Hc Hdoe'].
  apply andb_prop in Hc as [Hlo Hhi].
  apply Z.eqb_eq in Hdoe'. apply Z.leb_le in Hlo. apply Z.ltb_lt in Hhi.
  unfold eraDayFromCivil in *. cbn [year month date snd] in *.
  rewrite Hdoe'. f_equal.
  rewrite Z.div_small by lia. lia.
Qed.

(** [MakeDay] undoes [civilFromDays]: a date names one day. *)
Lemma MakeDay_civilFromDays (day : Z) : MakeDay (civilFromDays day) = day.
Proof.
  unfold MakeDay, civilFromDays.
  rewrite eraDayFromCivil_civilOfEraDay
    by (apply Z.mod_pos_bound; unfold daysPerEra; lia).
  pose proof (Z.div_mod (day + 719468) daysPerEra) as Hdm.
  unfold daysPerEra in *. lia.
Qed.

Lemma civilFromDays_inj (a b : Z) :
  civilFromDays a = civilFromDays b -> a = b.
Proof.
  intros H. rewrite <- (MakeDay_civilFromDays a), H.
  apply MakeDay_civilFromDays.
Qed.

Lemma DateString_eqb_eq (a b : DateString) :
  DateString_eqb a b = true <-> a = b.
Proof.
  destruct a, b; cbn; try (split; [discriminate | congruence]); [easy|].
  rewrite !andb_true_iff, !Z.eqb_eq. split.
  - intros [[[-> ->] ->] ->]. reflexivity.
  - intros [= -> -> -> ->]. auto.
Qed.

Variable LocalTZA : Z -> Z.

(** Two valid time values print the same date string exactly when they
    fall on the same local calendar day. *)
Lemma toDateString_same_day (a b : Z) :
  toDateString LocalTZA (Some a) = toDateString LocalTZA (Some b)
  <-> localDay LocalTZA a = localDay LocalTZA b.
Proof.
  unfold toDateString, localDay, WeekDay, MonthFromTime, DateFromTime,
    YearFromTime. cbv zeta.
  generalize (Day (LocalTime LocalTZA a)), (Day (LocalTime LocalTZA b)).
  intros da db. split.
  - intros H. apply civilFromDays_inj.
    destruct (civilFromDays da) as [ya ma dda],
             (civilFromDays db) as [yb mb ddb].
    cbn [year month date] in H. congruence.
  - intros ->. reflexivity.
Qed.

End DateFacts.

(* ===================================================================== *)
(** * Properties of [Overview]                                           *)
(* ===================================================================== *)

(** [Array.prototype.filter] with a boolean callback keeps what stdpp's
    [filter] keeps for the property the callback decides. *)
Lemma List_filter_decide {A : Type} (f : A -> bool) (P : A -> Prop)
    `{!∀ x, Decision (P x)} (l : list A) :
  (∀ x, f x = true ↔ P x) -> List.filter f l = filter P l.
Proof.
  intros Hf. induction l as [|x l IH]; [reflexivity|].
  cbn [List.filter]. rewrite filter_cons, IH.
  destruct (f x) eqn:Hfx, (decide (P x)) as [HP|HP]; try reflexivity.
  - exfalso. apply HP, Hf, Hfx.
  - apply Hf in HP. congruence.
Qed.

Section OverviewFacts.
Import Js Overview.

Variable LocalTZA : Z -> Z.
Variable Date_parse : string -> JsDate.TimeValue.

Lemma markedToday_spec (now : Z) (r : AttendanceRecord.t) :
  markedToday LocalTZA Date_parse
    (JsDate.toDateString LocalTZA (Some now)) r = true
  <-> markedOnDayOf LocalTZA Date_parse now r.
Proof.
  unfold markedToday, markedOnDayOf.
  rewrite DateString_eqb_eq.
  destruct (Date_parse (AttendanceRecord.Marked_at r)) as [t|]; cbn [fmap option_fmap option_map].
  - rewrite toDateString_same_day. split; congruence.
  - cbn. split; discriminate.
Qed.

(** Counting the day's records of one status. *)
Lemma todays_status_count (now : Z) (status : string)
    (attendance : list AttendanceRecord.t) :
  length
    (List.filter (fun r => String.eqb (AttendanceRecord.Status r) status)
       (List.filter
          (markedToday LocalTZA Date_parse
             (JsDate.toDateString LocalTZA (Some now))) attendance))
  = length
      (filter (fun r => AttendanceRecord.Status r = status
                        ∧ markedOnDayOf LocalTZA Date_parse now r) attendance).
Proof.
  rewrite (List_filter_decide (markedToday _ _ _) (markedOnDayOf LocalTZA Date_parse now))
    by apply markedToday_spec.
  rewrite (List_filter_decide _
             (fun r => AttendanceRecord.Status r = status))
    by (intros r; apply String.eqb_eq).
  rewrite list_filter_filter. reflexivity.
Qed.

(** C1. Of any list of attendance records, today's aggregate counts as
    present exactly the records with [Status] ['Present'] whose
    [Marked_at] falls on the current local calendar day, and as absent
    exactly those with [Status] ['Absent'] on that day.  In particular,
    for a present and an absent record marked today and a present
    record marked on the day before, the counts are 1 and 1. *)
Theorem todays_attendance_counts (now : Z)
    (attendance : list AttendanceRecord.t) :
  let today := computeTodaysAttendance LocalTZA Date_parse now attendance in
  present today
    = length (filter (fun r => AttendanceRecord.Status r = "Present"
                               ∧ markedOnDayOf LocalTZA Date_parse now r) attendance)
  ∧ absent today
    = length (filter (fun r => AttendanceRecord.Status r = "Absent"
                               ∧ markedOnDayOf LocalTZA Date_parse now r) attendance)
  ∧ ∀ (today1 today2 yesterday : string) (t1 t2 ty : Z),
      Date_parse today1 = Some t1 ->
      JsDate.localDay LocalTZA t1 = JsDate.localDay LocalTZA now ->
      Date_parse today2 = Some t2 ->
      JsDate.localDay LocalTZA t2 = JsDate.localDay LocalTZA now ->
      Date_parse yesterday = Some ty ->
      JsDate.localDay LocalTZA ty = JsDate.localDay LocalTZA now - 1 ->
      let sample :=
        computeTodaysAttendance LocalTZA Date_parse now
          [AttendanceRecord.mk "Present" today1;
           AttendanceRecord.mk "Absent" today2;
           AttendanceRecord.mk "Present" yesterday] in
      present sample = 1%nat ∧ absent sample = 1%nat.
Proof.
  cbv zeta. unfold computeTodaysAttendance. cbn [present absent].
  rewrite !todays_status_count. split; [reflexivity|]. split; [reflexivity|].
  intros today1 today2 yesterday t1 t2 ty H1 D1 H2 D2 Hy Dy.
  assert (Hin1 : markedOnDayOf LocalTZA Date_parse now (AttendanceRecord.mk "Present" today1))
    by (unfold markedOnDayOf; cbn; rewrite H1; cbn; congruence).
  assert (Hin2 : markedOnDayOf LocalTZA Date_parse now (AttendanceRecord.mk "Absent" today2))
    by (unfold markedOnDayOf; cbn; rewrite H2; cbn; congruence).
  assert (Hout : ¬ markedOnDayOf LocalTZA Date_parse now (AttendanceRecord.mk "Present" yesterday)).
  { unfold markedOnDayOf; cbn. rewrite Hy; cbn. intros [= Heq]. lia. }
  rewrite !todays_status_count. split.
  - rewrite filter_cons_True by (split; [reflexivity | exact Hin1]).
    rewrite filter_cons_False by (intros [? _]; discriminate).
    rewrite filter_cons_False by (intros [_ ?]; contradiction).
    reflexivity.
  - rewrite filter_cons_False by (intros [? _]; discriminate).
    rewrite filter_cons_True by (split; [reflexivity | exact Hin2]).
    rewrite filter_cons_False by (intros [? _]; discriminate).
    reflexivity.
Qed.

End OverviewFacts.

Lemma todays_attendance_counts_witness :
  JsDate.localDay sampleTZA 1793680200000 = JsDate.localDay sampleTZA sampleNow
  ∧ JsDate.localDay sampleTZA 1793696400000 = JsDate.localDay sampleTZA sampleNow
  ∧ JsDate.localDay sampleTZA 1793595600000
    = JsDate.localDay sampleTZA sampleNow - 1
  ∧ let sample :=
      Overview.computeTodaysAttendance sampleTZA sampleParse sampleNow
        [Overview.AttendanceRecord.mk "Present" "2026-11-03T04:30:00.000+00:00";
         Overview.AttendanceRecord.mk "Absent" "2026-11-03T09:00:00.000+00:00";
         Overview.AttendanceRecord.mk "Present" "2026-11-02T05:00:00.000+00:00"]
    in Overview.present sample = 1%nat ∧ Overview.absent sample = 1%nat.
Proof.
  split; [reflexivity|]. split; [reflexivity|]. split; [reflexivity|].
  apply (proj2 (proj2
           (todays_attendance_counts sampleTZA sampleParse sampleNow []))
           _ _ _ 1793680200000 1793696400000 1793595600000);
    reflexivity.
Defined.

Section CourseDistribution.
Import Overview.

Lemma enrolledIn_count (course : Course.t) (students : list Student.t) :
  length (List.filter (enrolledIn course) students)
  = enrolment course students.
Proof.
  unfold enrolment. f_equal. apply List_filter_decide.
  intros s. unfold enrolledIn.
  destruct (Student.Course s) as [c|]; cbn.
  - rewrite String.eqb_eq. split; congruence.
  - split; discriminate.
Qed.

(** A course nobody is enrolled in has no entry. *)
Lemma course_distribution_drops_empty_course :
  ¬ oneEntryPerCourse [Course.mk "c1" "O Level"] [].
Proof. unfold oneEntryPerCourse. cbn. discriminate. Qed.

(** C2, as the code has it. The per-course enrolment distribution has one
    entry per course with at least one enrolled student, in the order
    of the courses, pairing the course's programme name with the number
    of students whose course reference is the course's identifier;
    courses with no enrolled student have no entry. *)
Theorem course_distribution_enrolled_courses
    (courses : list Course.t) (students : list Student.t) :
  computeCourseDistribution courses students
  = entryOf students
      <$> filter (fun course => (0 < enrolment course students)%nat) courses.
Proof.
  unfold computeCourseDistribution.
  induction courses as [|course courses IH]; [reflexivity|].
  cbn [map List.filter value]. rewrite filter_cons, IH, enrolledIn_count.
  destruct (decide (0 < enrolment course students)%nat) as [Hpos|Hzero].
  - apply Nat.ltb_lt in Hpos. rewrite Hpos. reflexivity.
  - apply Nat.ltb_nlt in Hzero. rewrite Hzero. reflexivity.
Qed.

End CourseDistribution.

Section FetchStatistics.
Import Js Overview.

Variable LocalTZA : Z -> Z.
Variable Date_parse : string -> JsDate.TimeValue.

(** C9. If any of the three fetches rejects, the error flag is set to
    the static message, that message is rendered in place of the
    dashboard, and no statistics are computed: [stats] keeps the value
    it had, whatever the other fetches returned. *)
Theorem fetch_rejected_shows_error (now : Z)
    (getStudents : Outcome (option StudentsResponse))
    (fetchCourses : Outcome (option (list Course.t)))
    (getAttendance : Outcome (option (list AttendanceRecord.t)))
    (s : State) :
  isRejected getStudents ∨ isRejected fetchCourses
    ∨ isRejected getAttendance ->
  let s' := fetchStatistics LocalTZA Date_parse now
              getStudents fetchCourses getAttendance s in
  error s' = Some errorText
  ∧ render s' = ErrorMessage errorText
  ∧ stats s' = stats s.
Proof.
  intros Hrej. unfold fetchStatistics.
  destruct getStudents, fetchCourses, getAttendance; cbn in Hrej;
    try (exfalso; tauto); cbn; auto.
Qed.

End FetchStatistics.

Lemma fetch_rejected_shows_error_witness :
  let s' := Overview.fetchStatistics sampleTZA sampleParse sampleNow
              (Js.Resolved (Some (Overview.mkStudentsResponse (Some []))))
              (Js.Rejected (Js.mkError "Network request failed"))
              (Js.Resolved (Some []))
              Overview.initialState in
  Overview.error s' = Some Overview.errorText
  ∧ Overview.render s' = Overview.ErrorMessage Overview.errorText
  ∧ Overview.stats s' = None.
Proof.
  apply (fetch_rejected_shows_error sampleTZA sampleParse sampleNow
           (Js.Resolved (Some (Overview.mkStudentsResponse (Some []))))
           (Js.Rejected (Js.mkError "Network request failed"))
           (Js.Resolved (Some []))
           Overview.initialState).
  right. left. exact I.
Defined.

(* ===================================================================== *)
(** * Properties of [LocationManager]                                    *)
(* ===================================================================== *)

Section LocationManagerFacts.
Import Js LocationManager.

Ltac handler_steps :=
  unfold run, handleSubmit, handleDelete, handleEdit, handleCancelEdit,
    try_catch, await, getState, toast_loading, toast_success, toast_error,
    toast_update, setLocations, setFormData, setEditingLocationId,
    modifyState, mbind, mret, Handler_bind, Handler_ret;
  cbn [component toasts nextToast calls locations loading error formData
       editingLocationId fst snd].

Lemma truthy_Some (s : string) : truthy (Some s) = true <-> s ≠ "".
Proof.
  cbn. rewrite negb_true_iff. split.
  - intros H ->. discriminate.
  - intros H. apply String.eqb_neq. exact H.
Qed.

Lemma truthy_false (v : option string) :
  truthy v = false <-> v = None ∨ v = Some "".
Proof.
  destruct v as [s|]; cbn.
  - rewrite negb_false_iff, String.eqb_eq. split.
    + intros ->. auto.
    + intros [|[= ->]]; [discriminate | reflexivity].
  - split; auto.
Qed.

(** Every submit issues exactly one remote call, the one
    [submitSettles] names. *)
Lemma submit_issues_call (svc : Service) (w : World) :
  ∃ call settled,
    submitSettles svc (component w) call settled
    ∧ calls (run (handleSubmit svc) w) = (calls w ++ [call])%list.
Proof.
  destruct (editingLocationId (component w)) as [editingId|] eqn:Hid.
  - destruct (truthy (Some editingId)) eqn:Ht.
    + eexists _, _. split.
      * apply (settles_update svc _ editingId); [exact Hid|].
        apply truthy_Some, Ht.
      * handler_steps. rewrite Hid, Ht.
        destruct (updateLocation svc editingId _); reflexivity.
    + eexists _, _. split.
      * apply settles_add. rewrite Hid. exact Ht.
      * handler_steps. rewrite Hid, Ht.
        destruct (addLocation svc _); reflexivity.
  - eexists _, _. split.
    + apply settles_add. rewrite Hid. reflexivity.
    + handler_steps. rewrite Hid.
      destruct (addLocation svc _); reflexivity.
Qed.

(** What a submit does once its call has resolved. *)
Lemma submit_resolved (svc : Service) (w : World) (call : RemoteCall)
    (returned : Location.t) :
  submitSettles svc (component w) call (Resolved returned) ->
  let s := component w in
  run (handleSubmit svc) w
  = mkWorld
      (mkState
         (match call with
          | CallUpdateLocation editingId _ =>
              map (fun loc => if String.eqb (Location.id loc) editingId
                              then returned else loc) (locations s)
          | _ => returned :: locations s
          end)
         (loading s) (error s) FormData.empty None)
      (<[nextToast w :=
           mkToast ToastSuccess
             (match call with
              | CallUpdateLocation _ _ => "Location updated!"
              | _ => "Location added!"
              end)]>
         (<[nextToast w :=
              mkToast ToastLoading
                (if truthy (editingLocationId s)
                 then "Updating..." else "Adding...")]> (toasts w)))
      (S (nextToast w))
      (calls w ++ [call])%list.
Proof.
  intros Hs. cbv zeta.
  remember (Resolved returned) as settled eqn:Hres.
  destruct Hs as [Hf | editingId Hid Hne].
  - handler_steps. rewrite Hf.
    apply truthy_false in Hf as [Hid | Hid]; rewrite Hid; cbn;
      rewrite Hres; reflexivity.
  - handler_steps. rewrite Hid.
    apply truthy_Some in Hne. rewrite Hne, Hres. reflexivity.
Qed.

(** What a submit does once its call has rejected. *)
Lemma submit_rejected (svc : Service) (w : World) (call : RemoteCall)
    (err : Error) :
  submitSettles svc (component w) call (Rejected err) ->
  run (handleSubmit svc) w
  = mkWorld (component w)
      (<[nextToast w := mkToast ToastError (message err)]>
         (<[nextToast w :=
              mkToast ToastLoading
                (if truthy (editingLocationId (component w))
                 then "Updating..." else "Adding...")]> (toasts w)))
      (S (nextToast w))
      (calls w ++ [call])%list.
Proof.
  intros Hs. remember (Rejected err) as settled eqn:Hres.
  destruct Hs as [Hf | editingId Hid Hne].
  - handler_steps. rewrite Hf.
    apply truthy_false in Hf as [Hid | Hid]; rewrite Hid; cbn;
      rewrite Hres; reflexivity.
  - handler_steps. rewrite Hid.
    apply truthy_Some in Hne. rewrite Hne, Hres. reflexivity.
Qed.

(** What a confirmed delete does, by how its call settles. *)
Lemma delete_resolved (svc : Service) (w : World) (locationId : string) :
  deleteLocation svc locationId = Resolved tt ->
  let s := component w in
  run (handleDelete svc true locationId) w
  = mkWorld
      (mkState
         (List.filter
            (fun loc => negb (String.eqb (Location.id loc) locationId))
            (locations s))
         (loading s) (error s) (formData s) (editingLocationId s))
      (<[nextToast w := mkToast ToastSuccess "Location deleted."]>
         (<[nextToast w := mkToast ToastLoading "Deleting..."]> (toasts w)))
      (S (nextToast w))
      (calls w ++ [CallDeleteLocation locationId])%list.
Proof. intros Hres. handler_steps. rewrite Hres. reflexivity. Qed.

Lemma delete_rejected (svc : Service) (w : World) (locationId : string)
    (err : Error) :
  deleteLocation svc locationId = Rejected err ->
  run (handleDelete svc true locationId) w
  = mkWorld (component w)
      (<[nextToast w := mkToast ToastError (message err)]>
         (<[nextToast w := mkToast ToastLoading "Deleting..."]> (toasts w)))
      (S (nextToast w))
      (calls w ++ [CallDeleteLocation locationId])%list.
Proof. intros Hres. handler_steps. rewrite Hres. reflexivity. Qed.

Lemma delete_declined (svc : Service) (w : World) (locationId : string) :
  run (handleDelete svc false locationId) w = w.
Proof. reflexivity. Qed.

(** C3. Whatever the starting list, when the remote call of a mutation
    rejects (the create or update call of a submit, the delete call of
    a confirmed delete), the location list after the handler is the list
    before it and the rejection's message is shown as an error
    notification.  The list is updated only when the call resolves: a
    handler that changed the list had its call resolved. *)
Theorem rejected_mutation_keeps_locations
    (svc : Service) (w : World) (err : Error) :
  (∀ call,
      submitSettles svc (component w) call (Rejected err) ->
      rejectionSurfaced err w (run (handleSubmit svc) w))
  ∧ (∀ locationId,
      deleteLocation svc locationId = Rejected err ->
      rejectionSurfaced err w (run (handleDelete svc true locationId) w))
  ∧ (∀ call settled,
      submitSettles svc (component w) call settled ->
      locations (component (run (handleSubmit svc) w))
        ≠ locations (component w) ->
      ∃ returned, settled = Resolved returned)
  ∧ (∀ confirmed locationId,
      locations (component (run (handleDelete svc confirmed locationId) w))
        ≠ locations (component w) ->
      confirmed = true ∧ deleteLocation svc locationId = Resolved tt).
Proof.
  split; [|split; [|split]].
  - intros call Hs. rewrite (submit_rejected _ _ _ _ Hs).
    split; [reflexivity|]. cbn [toasts]. apply lookup_insert_eq.
  - intros locationId Hs. rewrite (delete_rejected _ _ _ _ Hs).
    split; [reflexivity|]. cbn [toasts]. apply lookup_insert_eq.
  - intros call [returned|err'] Hs Hchanged; [eauto|].
    rewrite (submit_rejected _ _ _ _ Hs) in Hchanged. contradiction.
  - intros [|] locationId Hchanged.
    + split; [reflexivity|].
      destruct (deleteLocation svc locationId) as [[]|err'] eqn:Hs;
        [reflexivity|].
      rewrite (delete_rejected _ _ _ _ Hs) in Hchanged. contradiction.
    + rewrite delete_declined in Hchanged. contradiction.
Qed.

(** C4. With ['12.34'] and ['56.78'] in the form and no editing id, a
    submit calls the create function with exactly
    [{Latitude: 12.34, Longitude: 56.78}], and when that call resolves
    the returned record is put in front of the list, the rest of the
    list unchanged. *)
Theorem submit_add_form (svc : Service) (w : World) :
  FormData.Latitude (formData (component w)) = "12.34" ->
  FormData.Longitude (formData (component w)) = "56.78" ->
  editingLocationId (component w) = None ->
  let data := LocationData.mk (literal 12.34) (literal 56.78) in
  let w' := run (handleSubmit svc) w in
  calls w' = (calls w ++ [CallAddLocation data])%list
  ∧ ∀ newLocation,
      addLocation svc data = Resolved newLocation ->
      locations (component w') = newLocation :: locations (component w).
Proof.
  intros Hlat Hlon Hid data w'.
  assert (Hdata : locationDataOf (formData (component w)) = data).
  { unfold locationDataOf. rewrite Hlat, Hlon.
    subst data. f_equal; vm_compute; reflexivity. }
  assert (Hs : submitSettles svc (component w)
                 (CallAddLocation data) (addLocation svc data)).
  { rewrite <- Hdata. apply settles_add. rewrite Hid. reflexivity. }
  subst w'. split.
  - destruct (addLocation svc data) as [returned|err] eqn:Hres.
    + rewrite (submit_resolved _ _ _ _ Hs). reflexivity.
    + rewrite (submit_rejected _ _ _ _ Hs). reflexivity.
  - intros newLocation Hres. rewrite Hres in Hs.
    rewrite (submit_resolved _ _ _ _ Hs). reflexivity.
Qed.

Section Editing.
Variable Number_toString : number -> string.

Lemma replace_by_id (editingId : string) (updated : Location.t)
    (l : list Location.t) :
  map (fun loc => if String.eqb (Location.id loc) editingId
                  then updated else loc) l
  = (fun loc => if decide (Location.id loc = editingId)
                then updated else loc) <$> l.
Proof.
  apply map_ext. intros loc.
  destruct (decide (Location.id loc = editingId)) as [Heq|Hne].
  - apply String.eqb_eq in Heq. rewrite Heq. reflexivity.
  - apply String.eqb_neq in Hne. rewrite Hne. reflexivity.
Qed.

(** C5, as the code has it. For every location whose identifier is
    not the empty string, edit fills the form with the location's
    stored latitude and longitude and records its identifier as the
    editing id, the submit that follows calls the update function
    (not the create function) with that identifier, and on success
    the list entries with that identifier are replaced by the
    returned record. *)
Theorem edit_then_submit_updates (svc : Service) (w : World)
    (location : Location.t) :
  Location.id location ≠ "" ->
  editThenSubmitUpdates Number_toString svc w location.
Proof.
  intros Hne. unfold editThenSubmitUpdates. cbv zeta.
  set (w1 := run (handleEdit Number_toString location) w).
  assert (Hw1 : w1 = mkWorld
            (mkState (locations (component w)) (loading (component w))
               (error (component w))
               (FormData.mk
                  (Number_toString (Location.Latitude location))
                  (Number_toString (Location.Longitude location)))
               (Some (Location.id location)))
            (toasts w) (nextToast w) (calls w)) by reflexivity.
  assert (Hs : submitSettles svc (component w1)
            (CallUpdateLocation (Location.id location)
               (locationDataOf (formData (component w1))))
            (updateLocation svc (Location.id location)
               (locationDataOf (formData (component w1))))).
  { apply settles_update; [rewrite Hw1; reflexivity | exact Hne]. }
  split; [rewrite Hw1; reflexivity|].
  split; [rewrite Hw1; reflexivity|]. split.
  - destruct (updateLocation svc (Location.id location) _)
      as [returned|err] eqn:Hres.
    + rewrite (submit_resolved _ _ _ _ Hs). rewrite Hw1. reflexivity.
    + rewrite (submit_rejected _ _ _ _ Hs). rewrite Hw1. reflexivity.
  - intros updated Hres. rewrite Hres in Hs.
    rewrite (submit_resolved _ _ _ _ Hs). cbn [component locations].
    rewrite replace_by_id, Hw1. reflexivity.
Qed.
End Editing.

(** C6. A confirmed delete whose call resolves leaves the list with
    exactly the entries bearing the targeted identifier removed, the
    others unchanged and in the same order; a declined delete leaves
    the list unchanged and issues no remote call. *)
Theorem delete_removes_target (svc : Service) (w : World)
    (locationId : string) :
  (deleteLocation svc locationId = Resolved tt ->
   locations (component (run (handleDelete svc true locationId) w))
   = filter (fun loc => Location.id loc ≠ locationId)
       (locations (component w)))
  ∧ locations (component (run (handleDelete svc false locationId) w))
    = locations (component w)
  ∧ calls (run (handleDelete svc false locationId) w) = calls w.
Proof.
  split; [|split; reflexivity].
  intros Hres. rewrite (delete_resolved _ _ _ Hres). cbn [component locations].
  apply List_filter_decide. intros loc.
  rewrite negb_true_iff. apply String.eqb_neq.
Qed.

(** C10. After a submit whose call resolved, be it a create or an
    update, the form fields are empty strings and the editing id is
    [null], so the submit that follows calls create; after a submit
    whose call rejected, the form fields and the editing id are as
    before. *)
Theorem submit_resets_form (svc : Service) (w : World) (call : RemoteCall) :
  (∀ returned,
      submitSettles svc (component w) call (Resolved returned) ->
      let w' := run (handleSubmit svc) w in
      formData (component w') = FormData.mk "" ""
      ∧ editingLocationId (component w') = None
      ∧ ∀ svc',
          calls (run (handleSubmit svc') w')
          = (calls w' ++ [CallAddLocation (locationDataOf (FormData.mk "" ""))])%list)
  ∧ (∀ err,
      submitSettles svc (component w) call (Rejected err) ->
      let w' := run (handleSubmit svc) w in
      formData (component w') = formData (component w)
      ∧ editingLocationId (component w') = editingLocationId (component w)).
Proof.
  split.
  - intros returned Hs. cbv zeta. rewrite (submit_resolved _ _ _ _ Hs).
    split; [reflexivity|]. split; [reflexivity|].
    intros svc'. handler_steps.
    destruct (addLocation svc' _); reflexivity.
  - intros err Hs. cbv zeta. rewrite (submit_rejected _ _ _ _ Hs).
    split; reflexivity.
Qed.

End LocationManagerFacts.

Section LocationManagerRuns.
Import Js LocationManager Sample.

Lemma rejected_mutation_keeps_locations_witness :
  rejectionSurfaced offline typed (run (handleSubmit offlineService) typed)
  ∧ rejectionSurfaced offline listed
      (run (handleDelete offlineService true "loc-1") listed).
Proof.
  split.
  - apply (proj1 (rejected_mutation_keeps_locations
                    offlineService typed offline)
             (CallAddLocation (locationDataOf (formData (component typed))))).
    exact (settles_add offlineService (component typed) eq_refl).
  - apply (proj1 (proj2 (rejected_mutation_keeps_locations
                           offlineService listed offline)) "loc-1").
    reflexivity.
Defined.

Lemma submit_add_form_witness :
  let data := LocationData.mk (literal 12.34) (literal 56.78) in
  let w' := run (handleSubmit storingService) typed in
  calls w' = [CallAddLocation data]
  ∧ locations (component w')
    = [Location.mk "loc-3" (literal 12.34) (literal 56.78); delhi; imphal].
Proof.
  cbv zeta.
  destruct (submit_add_form storingService typed eq_refl eq_refl eq_refl)
    as [Hcalls Hlist].
  split; [exact Hcalls|].
  exact (Hlist _ eq_refl).
Defined.

(** Editing a location whose identifier is the empty string leaves the
    editing id falsy, and the submit that follows calls create. *)
Lemma edit_empty_id_submits_create :
  In unnamed (locations (component (loaded [unnamed] FormData.empty)))
  ∧ calls (run (handleSubmit storingService)
             (run (handleEdit Number_toString unnamed)
                  (loaded [unnamed] FormData.empty)))
    = [CallAddLocation (LocationData.mk (literal 12.34) (literal 56.78))]
  ∧ ¬ editThenSubmitUpdates Number_toString storingService
        (loaded [unnamed] FormData.empty) unnamed.
Proof.
  split; [left; reflexivity|]. split; [vm_compute; reflexivity|].
  intros (_ & _ & Hcalls & _). vm_compute in Hcalls. discriminate Hcalls.
Qed.

Lemma edit_then_submit_updates_witness :
  Location.id imphal ≠ ""
  ∧ editThenSubmitUpdates Number_toString storingService listed imphal.
Proof.
  assert (Hne : Location.id imphal ≠ "") by (vm_compute; discriminate).
  split; [exact Hne|].
  exact (edit_then_submit_updates Number_toString storingService listed
           imphal Hne).
Defined.

Lemma delete_removes_target_witness :
  deleteLocation storingService "loc-1" = Resolved tt
  ∧ locations (component (run (handleDelete storingService true "loc-1")
                            listed))
    = filter (fun loc => Location.id loc ≠ "loc-1") [delhi; imphal].
Proof.
  split; [reflexivity|].
  exact (proj1 (delete_removes_target storingService listed "loc-1")
           eq_refl).
Defined.

Lemma submit_resets_form_witness :
  let w' := run (handleSubmit storingService) typed in
  formData (component w') = FormData.mk "" ""
  ∧ editingLocationId (component w') = None
  ∧ (let w'' := run (handleSubmit offlineService) typed in
     formData (component w'') = FormData.mk "12.34" "56.78"
     ∧ editingLocationId (component w'') = None).
Proof.
  cbv zeta.
  pose (call := CallAddLocation (locationDataOf (formData (component typed)))).
  destruct (proj1 (submit_resets_form storingService typed call) _
              (settles_add storingService (component typed) eq_refl))
    as (Hform & Hid & _).
  split; [exact Hform|]. split; [exact Hid|].
  exact (proj2 (submit_resets_form offlineService typed call) _
           (settles_add offlineService (component typed) eq_refl)).
Defined.

End LocationManagerRuns.

(* ===================================================================== *)
(** * Properties of [AppearanceSettings]                                 *)
(* ===================================================================== *)

Section AppearanceFacts.
Import Js AppearanceSettings.

Lemma darkFlag_toggle (force : bool) (b : Browser) :
  darkFlag (classList_toggle "dark" force b) = force.
Proof.
  unfold darkFlag, classList_toggle. cbn [classList].
  destruct force.
  - apply bool_decide_eq_true, elem_of_union_l, elem_of_singleton.
    reflexivity.
  - apply bool_decide_eq_false. intros [_ Hout]%elem_of_difference.
    apply Hout, elem_of_singleton. reflexivity.
Qed.

(** C7. Selecting ['dark'] writes [theme=dark] and sets the root dark
    flag; selecting ['system'] removes the persisted key and sets the
    flag to the system's dark-scheme preference at that moment;
    selecting ['light'] writes [theme=light] and clears the flag. *)
Theorem theme_selection (w : World) :
  (let w' := handleThemeChange "dark" w in
   localStorage (browser w') !! "theme" = Some "dark"
   ∧ darkFlag (browser w') = true)
  ∧ (let w' := handleThemeChange "system" w in
     localStorage (browser w') !! "theme" = None
     ∧ darkFlag (browser w') = prefersDark (browser w))
  ∧ (let w' := handleThemeChange "light" w in
     localStorage (browser w') !! "theme" = Some "light"
     ∧ darkFlag (browser w') = false).
Proof.
  unfold handleThemeChange. cbn [String.eqb Ascii.eqb Bool.eqb browser].
  repeat split; try apply darkFlag_toggle;
    cbn [classList_toggle setItem removeItem localStorage].
  - apply lookup_insert_eq.
  - apply lookup_delete_eq.
  - apply lookup_insert_eq.
Qed.

(** What the listener does, by the truthiness of the persisted theme:
    it sets the flag when the key is absent or empty, and leaves the
    class list alone otherwise. *)
Lemma system_change_by_truthiness (dark : bool) (w : World) :
  listening (browser w) = true ->
  let w' := systemSchemeChange dark w in
  (localStorage (browser w) !! "theme" = None
   ∨ localStorage (browser w) !! "theme" = Some "" ->
   darkFlag (browser w') = dark)
  ∧ (∀ persisted,
       localStorage (browser w) !! "theme" = Some persisted ->
       persisted ≠ "" ->
       classList (browser w') = classList (browser w)
       ∧ darkFlag (browser w') = darkFlag (browser w)).
Proof.
  intros Hreg. unfold systemSchemeChange. cbv zeta.
  cbn [listening browser]. rewrite Hreg.
  unfold handleChange, getItem. cbn [localStorage prefersDark].
  split.
  - intros [-> | ->]; cbn [truthy String.eqb negb]; apply darkFlag_toggle.
  - intros persisted -> Hne.
    assert (Ht : truthy (Some persisted) = true).
    { cbn. apply negb_true_iff, String.eqb_neq, Hne. }
    rewrite Ht. cbn [negb browser classList]. split; reflexivity.
Qed.

(** C8. Whenever the system colour-scheme preference changes while the
    listener is registered, the listener sets the root dark flag to the
    new system preference if no theme preference is persisted, and
    leaves the flag as it was if one is: a persisted theme is never
    overridden by the system.  The persisted preference is the one of
    the specification, absent or ["light"] or ["dark"]. *)
Theorem listener_follows_system_iff_unset (dark : bool) (w : World) :
  listening (browser w) = true ->
  themeStore (browser w) ->
  listenerFollowsSystemIffUnset dark w.
Proof.
  intros Hreg Hstore. unfold listenerFollowsSystemIffUnset. cbv zeta.
  destruct (system_change_by_truthiness dark w Hreg) as [Hunset Hset].
  cbv zeta in Hunset, Hset. split.
  - intros Hnone. apply Hunset. left. exact Hnone.
  - intros [persisted Hp].
    destruct Hstore as [Hs | [Hs | Hs]]; rewrite Hs in Hp;
      [discriminate Hp | |]; injection Hp as <-;
      apply (Hset _ Hs); discriminate.
Qed.

Lemma listener_follows_system_iff_unset_witness :
  let w := mount (mkBrowser {["theme" := "light"]} ∅ false false) in
  listening (browser w) = true
  ∧ themeStore (browser w)
  ∧ listenerFollowsSystemIffUnset true w
  ∧ listenerFollowsSystemIffUnset true (mount (mkBrowser ∅ ∅ false false)).
Proof.
  cbv zeta.
  assert (Hlight : themeStore
                     (browser (mount (mkBrowser {["theme" := "light"]} ∅
                                                false false))))
    by (right; left; reflexivity).
  assert (Hnone : themeStore (browser (mount (mkBrowser ∅ ∅ false false))))
    by (left; reflexivity).
  split; [reflexivity|]. split; [exact Hlight|]. split.
  - exact (listener_follows_system_iff_unset true
             (mount (mkBrowser {["theme" := "light"]} ∅ false false))
             eq_refl Hlight).
  - exact (listener_follows_system_iff_unset true
             (mount (mkBrowser ∅ ∅ false false)) eq_refl Hnone).
Defined.

(** The component keeps the persisted preference within the
    specification's: a theme click leaves the key absent, ["light"] or
    ["dark"], and neither mounting nor a system change writes it. *)
Lemma theme_store_kept (ev : Event) (w : World) :
  themeStore (browser (clickTheme Light w))
  ∧ themeStore (browser (clickTheme Dark w))
  ∧ themeStore (browser (clickTheme System w))
  ∧ (themeStore (browser w) -> themeStore (browser (handle ev w)))
  ∧ (∀ b, themeStore b -> themeStore (browser (mount b))).
Proof.
  assert (Hclick : ∀ mode, themeStore (browser (clickTheme mode w))).
  { intros mode. unfold themeStore, clickTheme, handleThemeChange.
    destruct mode;
      cbn [modeName String.eqb Ascii.eqb Bool.eqb browser classList_toggle
           setItem removeItem localStorage];
      rewrite ?lookup_insert_eq, ?lookup_delete_eq; auto. }
  split; [apply Hclick|]. split; [apply Hclick|]. split; [apply Hclick|].
  split.
  - intros Hstore. destruct ev as [mode | dark']; cbn [handle];
      [apply Hclick|].
    unfold themeStore, systemSchemeChange, handleChange in *. cbv zeta.
    cbn [listening localStorage browser].
    destruct (listening (browser w)); [|exact Hstore].
    destruct (negb _); exact Hstore.
  - intros b Hstore. exact Hstore.
Qed.

End AppearanceFacts.

(* ===================================================================== *)
(** * Concrete runs                                                      *)
(* ===================================================================== *)

Section Runs.
Import Js JsDate LocationManager Sample.

(** [parseFloat] against the literals of the source text. *)
Example parseFloat_12_34 : parseFloat "12.34" = literal 12.34.
Proof. vm_compute. reflexivity. Qed.

Example parseFloat_56_78 : parseFloat "56.78" = literal 56.78.
Proof. vm_compute. reflexivity. Qed.

Example parseFloat_prefix : parseFloat "  -7.5e1px" = literal (-75).
Proof. vm_compute. reflexivity. Qed.

Example parseFloat_fixed6 : parseFloat "24.817000" = literal 24.817.
Proof. vm_compute. reflexivity. Qed.

Example parseFloat_empty : parseFloat "" = NaN.
Proof. reflexivity. Qed.

Example parseFloat_dot : parseFloat "." = NaN.
Proof. reflexivity. Qed.

Example parseFloat_open_exponent : parseFloat "3e+" = literal 3.
Proof. vm_compute. reflexivity. Qed.

(** Known dates: the epoch was a Thursday, the day before it the last
    day of 1969, and 29 February 2000 a Tuesday. *)
Example epoch_date :
  toDateString (fun _ => 0) (Some 0) = DateText 4 0 1 1970.
Proof. reflexivity. Qed.

Example before_epoch_date :
  toDateString (fun _ => 0) (Some (-1)) = DateText 3 11 31 1969.
Proof. reflexivity. Qed.

Example leap_day_date :
  toDateString (fun _ => 0) (Some 951782400000) = DateText 2 1 29 2000.
Proof. reflexivity. Qed.

(** 2026-11-02T19:00:00Z is already Tuesday 3 November in India. *)
Example local_date :
  toDateString sampleTZA (Some 1793646000000) = DateText 2 10 3 2026
  ∧ toDateString (fun _ => 0) (Some 1793646000000) = DateText 1 10 2 2026.
Proof. split; reflexivity. Qed.

Example invalid_date_differs :
  DateString_eqb (toDateString sampleTZA None)
                 (toDateString sampleTZA (Some sampleNow)) = false.
Proof. reflexivity. Qed.

(** Mounting the component against both backends. *)
Example load_resolved :
  component (run (loadLocations storingService) initialWorld)
  = mkState [delhi; imphal] false None FormData.empty None.
Proof. reflexivity. Qed.

Example load_rejected :
  component (run (loadLocations offlineService) initialWorld)
  = mkState [] false
      (Some "Failed to fetch locations: Network request failed")
      FormData.empty None.
Proof. reflexivity. Qed.

(** Typing the two coordinates into the form. *)
Example typing_fills_form :
  run (handleInputChange "Latitude" "12.34";;
       handleInputChange "Longitude" "56.78") listed = typed.
Proof. reflexivity. Qed.

(** Edit, then cancel: the form is empty again and nothing is edited. *)
Example edit_then_cancel :
  run (handleEdit Number_toString imphal;; handleCancelEdit) listed = listed.
Proof. reflexivity. Qed.

(** Edit the second location, submit: one update call, the second entry
    replaced, a success toast, the form reset. *)
Example edit_then_submit_run :
  run (handleEdit Number_toString imphal;; handleSubmit storingService) listed
  = mkWorld (mkState [delhi; imphal] false None FormData.empty None)
      {[ 0%nat := mkToast ToastSuccess "Location updated!" ]} 1%nat
      [CallUpdateLocation "loc-2"
         (LocationData.mk (literal 24.817) (literal 93.9368))].
Proof. vm_compute. reflexivity. Qed.

End Runs.

(* ===================================================================== *)
(** * [toFixed] and [parseFloat]                                         *)
(* ===================================================================== *)

Section FixedFacts.
Import Js.

Lemma digit_value_digitChar (d : Z) :
  0 <= d <= 9 -> digit_value (digitChar d) = Some d.
Proof.
  intros Hd.
  assert (Hcases : d = 0 ∨ d = 1 ∨ d = 2 ∨ d = 3 ∨ d = 4 ∨ d = 5 ∨ d = 6
                   ∨ d = 7 ∨ d = 8 ∨ d = 9) by lia.
  repeat (destruct Hcases as [-> | Hcases]; [reflexivity|]).
  subst d. reflexivity.
Qed.

Lemma numeral_app (l1 l2 : list ascii) (acc : Z) :
  numeral (l1 ++ l2) acc = numeral l2 (numeral l1 acc).
Proof. revert acc. induction l1 as [|c l1 IH]; intros acc; cbn; auto. Qed.

Lemma numeral_zeros (j : nat) (l : list ascii) :
  numeral (repeat "0"%char j ++ l) 0 = numeral l 0.
Proof. induction j as [|j IH]; [reflexivity | exact IH]. Qed.

Lemma digitsAcc_spec (fuel : nat) :
  forall n acc,
    0 <= n < 2 ^ Z.of_nat fuel ->
    Forall isDigit acc ->
    Forall isDigit (digitsAcc fuel n acc)
    ∧ (forall a, numeral (digitsAcc fuel n acc) a
                 = numeral acc (a * 10 ^ Z.of_nat (length (digitsAcc fuel n acc) - length acc) + n))
    ∧ (length acc <= length (digitsAcc fuel n acc))%nat
    ∧ (0 < n -> (length acc < length (digitsAcc fuel n acc))%nat).
Proof.
  induction fuel as [|k IH]; intros n acc Hn Hacc.
  - assert (n = 0) by (cbn in Hn; lia). subst n. cbn [digitsAcc].
    rewrite Nat.sub_diag. change (10 ^ Z.of_nat 0) with 1.
    split; [exact Hacc|]. split; [intros a; f_equal; lia|].
    split; lia.
  - cbn [digitsAcc]. destruct (n =? 0) eqn:Hz.
    + apply Z.eqb_eq in Hz. subst n. rewrite Nat.sub_diag.
      change (10 ^ Z.of_nat 0) with 1.
      split; [exact Hacc|]. split; [intros a; f_equal; lia|].
      split; lia.
    + apply Z.eqb_neq in Hz.
      assert (Hmod : 0 <= n mod 10 <= 9) by (pose proof (Z.mod_pos_bound n 10); lia).
      assert (Hdiv : 0 <= n / 10 < 2 ^ Z.of_nat k).
      { split; [apply Z.div_pos; lia|].
        apply Z.div_lt_upper_bound; [lia|].
        rewrite Nat2Z.inj_succ, Z.pow_succ_r in Hn by lia. lia. }
      assert (Hacc' : Forall isDigit (digitChar (n mod 10) :: acc)).
      { constructor; [|exact Hacc]. unfold isDigit.
        rewrite digit_value_digitChar by exact Hmod. eauto. }
      destruct (IH (n / 10) _ Hdiv Hacc') as (Hall & Hnum & Hlen & _).
      cbn [length] in Hlen, Hnum.
      repeat split; [exact Hall | | lia | lia].
      intros a. rewrite Hnum. cbn [numeral].
      rewrite digit_value_digitChar by exact Hmod. cbn [default].
      f_equal.
      replace (length (digitsAcc k (n / 10) (digitChar (n mod 10) :: acc)) - length acc)%nat
        with (S (length (digitsAcc k (n / 10) (digitChar (n mod 10) :: acc)) - S (length acc)))%nat by lia.
      rewrite Nat2Z.inj_succ, Z.pow_succ_r by lia.
      pose proof (Z.div_mod n 10 ltac:(lia)) as Hdm. unfold id. lia.
Qed.

Lemma decimalDigits_spec (n : Z) :
  0 <= n ->
  Forall isDigit (decimalDigits n)
  ∧ numeral (decimalDigits n) 0 = n
  ∧ (0 < length (decimalDigits n))%nat.
Proof.
  intros Hn. unfold decimalDigits. destruct (n =? 0) eqn:Hz.
  - apply Z.eqb_eq in Hz. subst n. repeat split.
    + repeat constructor. unfold isDigit. cbn. eauto.
    + cbn. lia.
  - apply Z.eqb_neq in Hz.
    assert (Hfuel : 0 <= n < 2 ^ Z.of_nat (S (Z.to_nat (Z.log2 n)))).
    { split; [lia|]. rewrite Nat2Z.inj_succ, Z2Nat.id by apply Z.log2_nonneg.
      apply Z.log2_spec. lia. }
    destruct (digitsAcc_spec _ n [] Hfuel (Forall_nil_2 _)) as (Hall & Hnum & _ & Hlen).
    repeat split; [exact Hall | | apply Hlen; lia].
    rewrite Hnum. cbn. lia.
Qed.

(** A digit character is one of the ten. *)
Lemma isDigit_digitChar (c : ascii) :
  isDigit c -> ∃ d, 0 <= d <= 9 ∧ c = digitChar d.
Proof.
  intros [d Hd]. exists d.
  destruct c as [[] [] [] [] [] [] [] []]; vm_compute in Hd;
    try discriminate Hd; injection Hd as <-; split; (lia || reflexivity).
Qed.

Lemma digitChar_cases (P : ascii -> Prop) :
  P "0"%char -> P "1"%char -> P "2"%char -> P "3"%char -> P "4"%char ->
  P "5"%char -> P "6"%char -> P "7"%char -> P "8"%char -> P "9"%char ->
  forall c, isDigit c -> P c.
Proof.
  intros H0 H1 H2 H3 H4 H5 H6 H7 H8 H9 c Hc.
  destruct (isDigit_digitChar c Hc) as (d & Hd & ->).
  assert (Hcases : d = 0 ∨ d = 1 ∨ d = 2 ∨ d = 3 ∨ d = 4 ∨ d = 5 ∨ d = 6
                   ∨ d = 7 ∨ d = 8 ∨ d = 9) by lia.
  repeat (destruct Hcases as [-> | Hcases]; [assumption|]).
  subst d. assumption.
Qed.

Lemma scan_digits_run (l r : list ascii) :
  Forall isDigit l -> endsDigits r ->
  forall acc c,
    scan_digits (string_of_list_ascii (l ++ r)) acc c
    = (numeral l acc, c + Z.of_nat (length l), string_of_list_ascii r).
Proof.
  intros Hl Hr. induction Hl as [|d l [v Hd] Hl IH]; intros acc c.
  - cbn [app numeral length]. replace (c + Z.of_nat 0) with c by lia.
    destruct r as [|x r]; [reflexivity|].
    cbn in Hr |- *. rewrite Hr. reflexivity.
  - cbn [app string_of_list_ascii scan_digits numeral length].
    rewrite Hd. cbn [default from_option id]. rewrite IH. f_equal. f_equal. lia.
Qed.

(** A text that starts with a digit is parsed as an unsigned literal. *)
Lemma parseFloat_digit_head (c : ascii) (rest : string) :
  isDigit c -> parseFloat (String c rest) = parse_unsigned false (String c rest).
Proof. revert c. apply digitChar_cases; reflexivity. Qed.

Lemma starts_with_Infinity_digit (c : ascii) (rest : string) :
  isDigit c -> starts_with "Infinity" (String c rest) = false.
Proof. revert c. apply digitChar_cases; reflexivity. Qed.

Lemma parse_unsigned_integer (neg : bool) (l : list ascii) :
  Forall isDigit l -> (0 < length l)%nat ->
  parse_unsigned neg (string_of_list_ascii l)
  = round_decimal neg (numeral l 0) 0.
Proof.
  intros Hl Hlen. destruct l as [|c l]; [cbn in Hlen; lia|].
  unfold parse_unsigned. cbn [string_of_list_ascii].
  rewrite starts_with_Infinity_digit by (inversion Hl; assumption).
  change (String c (string_of_list_ascii l))
    with (string_of_list_ascii (c :: l)).
  rewrite <- (app_nil_r (c :: l)) at 1.
  rewrite (scan_digits_run (c :: l) [] Hl I).
  cbn [string_of_list_ascii scan_exponent].
  destruct (0 <? 0 + Z.of_nat (length (c :: l))) eqn:Hpos; [reflexivity|].
  apply Z.ltb_ge in Hpos. lia.
Qed.

Lemma parse_unsigned_fraction (neg : bool) (a b : list ascii) :
  Forall isDigit a -> Forall isDigit b -> (0 < length a)%nat ->
  parse_unsigned neg (string_of_list_ascii (a ++ "."%char :: b))
  = round_decimal neg (numeral (a ++ b) 0) (- Z.of_nat (length b)).
Proof.
  intros Ha Hb Hlen. destruct a as [|c a]; [cbn in Hlen; lia|].
  unfold parse_unsigned.
  change (string_of_list_ascii ((c :: a) ++ "."%char :: b))
    with (String c (string_of_list_ascii (a ++ "."%char :: b))).
  rewrite starts_with_Infinity_digit by (inversion Ha; assumption).
  change (String c (string_of_list_ascii (a ++ "."%char :: b)))
    with (string_of_list_ascii ((c :: a) ++ "."%char :: b)).
  rewrite (scan_digits_run (c :: a) ("."%char :: b) Ha eq_refl).
  cbn [string_of_list_ascii].
  rewrite <- (app_nil_r b) at 1.
  rewrite (scan_digits_run b [] Hb I).
  cbn [string_of_list_ascii scan_exponent].
  rewrite numeral_app.
  destruct (0 <? 0 + Z.of_nat (length (c :: a))) eqn:Hpos.
  - cbn [orb]. f_equal; lia.
  - apply Z.ltb_ge in Hpos. cbn [length] in Hpos. lia.
Qed.

Lemma fixedDigits_parse (neg : bool) (f : nat) (n : Z) :
  0 <= n ->
  parse_unsigned neg (string_of_list_ascii (fixedDigits f n))
  = round_decimal neg n (- Z.of_nat f).
Proof.
  intros Hn. destruct (decimalDigits_spec n Hn) as (Hall & Hnum & Hlen).
  unfold fixedDigits. destruct (Nat.eqb f 0) eqn:Hf.
  - apply Nat.eqb_eq in Hf. subst f.
    rewrite parse_unsigned_integer by assumption. rewrite Hnum. reflexivity.
  - apply Nat.eqb_neq in Hf. cbv zeta.
    set (m := if (length (decimalDigits n) <=? f)%nat then _ else _).
    assert (Hm : Forall isDigit m ∧ numeral m 0 = n ∧ (f < length m)%nat).
    { subst m. destruct (length (decimalDigits n) <=? f)%nat eqn:Hk.
      - apply Nat.leb_le in Hk. rewrite numeral_zeros.
        split; [|split; [exact Hnum|]].
        + apply Forall_app. split; [|exact Hall].
          apply Forall_forall. intros c Hc.
          apply list_elem_of_In, repeat_spec in Hc. subst c. unfold isDigit. cbn. eauto.
        + rewrite length_app, repeat_length. lia.
      - apply Nat.leb_gt in Hk. auto. }
    destruct Hm as (Hmall & Hmnum & Hmlen).
    rewrite parse_unsigned_fraction.
    + rewrite take_drop, Hmnum, length_drop. do 2 f_equal. lia.
    + apply Forall_take, Hmall.
    + apply Forall_drop, Hmall.
    + rewrite length_take. lia.
Qed.

Lemma scaledNearest_nonneg (m : positive) (e : Z) (f : nat) :
  0 <= scaledNearest m e f.
Proof.
  unfold scaledNearest. destruct (0 <=? e) eqn:He.
  - apply Z.leb_le in He.
    assert (0 < 2 ^ e) by (apply Z.pow_pos_nonneg; lia).
    assert (0 < 10 ^ Z.of_nat f) by (apply Z.pow_pos_nonneg; lia). nia.
  - apply Z.leb_gt in He.
    assert (0 < 2 ^ (- e)) by (apply Z.pow_pos_nonneg; lia).
    assert (0 < 10 ^ Z.of_nat f) by (apply Z.pow_pos_nonneg; lia).
    apply Z.div_pos; nia.
Qed.

Lemma fixedDigits_head (f : nat) (n : Z) :
  0 <= n -> ∃ c rest, fixedDigits f n = c :: rest ∧ isDigit c.
Proof.
  intros Hn. destruct (decimalDigits_spec n Hn) as (Hall & _ & Hlen).
  unfold fixedDigits. destruct (Nat.eqb f 0).
  - destruct (decimalDigits n) as [|c rest]; [cbn in Hlen; lia|].
    exists c, rest. split; [reflexivity|]. inversion Hall; assumption.
  - cbv zeta.
    set (m := if (length (decimalDigits n) <=? f)%nat then _ else _).
    assert (Hm : Forall isDigit m ∧ (f < length m)%nat).
    { subst m. destruct (length (decimalDigits n) <=? f)%nat eqn:Hk.
      - apply Nat.leb_le in Hk. split.
        + apply Forall_app. split; [|exact Hall].
          apply Forall_forall. intros c Hc.
          apply list_elem_of_In, repeat_spec in Hc. subst c.
          unfold isDigit. cbn. eauto.
        + rewrite length_app, repeat_length. lia.
      - apply Nat.leb_gt in Hk. auto. }
    destruct Hm as (Hmall & Hmlen).
    destruct m as [|c m']; [cbn in Hmlen; lia|].
    replace (length (c :: m') - f)%nat with (S (length m' - f))
      by (cbn [length] in *; lia).
    cbn [take app]. eexists _, _. split; [reflexivity|].
    inversion Hmall; assumption.
Qed.

Variable Number_toString : number -> string.

(** What [toFixed] prints, [parseFloat] reads back as the value rounded
    to that many decimals. *)
Lemma parseFloat_toFixed (f : nat) (x : number) :
  fixable x ->
  parseFloat (toFixed Number_toString f x) = roundedTo f x.
Proof.
  destruct x as [s | s | | s m e]; cbn [fixable]; try contradiction.
  - intros _. cbn [toFixed roundedTo].
    destruct (fixedDigits_head f 0 ltac:(lia)) as (c & rest & Heq & Hc).
    rewrite Heq. cbn [string_of_list_ascii].
    rewrite parseFloat_digit_head by exact Hc.
    change (String c (string_of_list_ascii rest))
      with (string_of_list_ascii (c :: rest)).
    rewrite <- Heq, fixedDigits_parse by lia. reflexivity.
  - intros Hlt. cbn [toFixed roundedTo]. rewrite Hlt.
    pose proof (scaledNearest_nonneg m e f) as Hn.
    destruct s.
    + change (parseFloat ("-" ++ ?b)) with (parse_unsigned true b).
      apply fixedDigits_parse, Hn.
    + destruct (fixedDigits_head f _ Hn) as (c & rest & Heq & Hc).
      rewrite Heq at 1.
      change (parseFloat (String c (string_of_list_ascii rest))
              = round_decimal false (scaledNearest m e f) (- Z.of_nat f)).
      rewrite parseFloat_digit_head by exact Hc.
      change (String c (string_of_list_ascii rest))
        with (string_of_list_ascii (c :: rest)).
      rewrite <- Heq. apply fixedDigits_parse, Hn.
Qed.

End FixedFacts.

(* ===================================================================== *)
(** * More of [LocationManager]: loading, rendering, event sequences     *)
(* ===================================================================== *)

Section LocationEventsFacts.
Import Js LocationManager.

Ltac handler_unfold :=
  unfold run, handle, loadLocations, handleInputChange, handleSubmit,
    handleDelete, handleEdit, handleCancelEdit, handleGetLocation,
    positionFound, positionFailed, toast_dismiss, toast_show,
    try_catch, try_finally, await, getState, toast_loading, toast_success,
    toast_error, toast_update, setLocations, setLoading, setError,
    setFormData, setEditingLocationId, modifyState, mbind, mret,
    Handler_bind, Handler_ret;
  cbn [component toasts nextToast calls locations loading error formData
       editingLocationId fst snd].

(** X1. [loadLocations] always ends with [loading] false and exactly
    one fetch call, and touches neither the form, the editing id nor
    the toasts.  A resolved fetch replaces the list by the response, by
    the empty list when the response is [null]; a rejected fetch keeps
    the list and sets the error to ["Failed to fetch locations: "]
    followed by the rejection's message. *)
Theorem load_locations_outcome (svc : Service) (w : World) :
  let w' := run (loadLocations svc) w in
  loading (component w') = false
  ∧ calls w' = (calls w ++ [CallFetchLocations])%list
  ∧ toasts w' = toasts w
  ∧ formData (component w') = formData (component w)
  ∧ editingLocationId (component w') = editingLocationId (component w)
  ∧ match fetchLocations svc with
    | Resolved (Some l) =>
        locations (component w') = l ∧ error (component w') = error (component w)
    | Resolved None =>
        locations (component w') = [] ∧ error (component w') = error (component w)
    | Rejected err =>
        locations (component w') = locations (component w)
        ∧ error (component w')
          = Some ("Failed to fetch locations: " ++ message err)
    end.
Proof.
  handler_unfold. destruct (fetchLocations svc) as [[l|]|err]; cbn; auto 10.
Qed.

Variable Number_toString : number -> string.

Lemma truthy_prefixed (msg : string) :
  truthy (Some ("Failed to fetch locations: " ++ msg)) = true.
Proof. reflexivity. Qed.

(** X2. What the freshly mounted component shows once the fetch has
    settled: the error box with the prefixed message when it rejected;
    otherwise the add form (empty fields, "Add", no cancel button) over
    one row per fetched location, in order, or over the "no locations"
    note when the response is empty or [null]. *)
Theorem mounted_view (svc : Service) :
  render Number_toString (component (run (loadLocations svc) initialWorld))
  = match fetchLocations svc with
    | Rejected err => ErrorBox ("Failed to fetch locations: " ++ message err)
    | Resolved response =>
        let l := or_default response [] in
        Form (mkPage "Add New Location" "" "" "Add" false
                (match l with
                 | [] => NoLocations
                 | _ :: _ => LocationRows (map (renderRow Number_toString) l)
                 end))
    end.
Proof.
  handler_unfold. destruct (fetchLocations svc) as [[[|loc l]|]|err];
    reflexivity.
Qed.


Ltac world_simpl :=
  cbn [component toasts nextToast calls locations loading error formData
       editingLocationId fst snd].

Ltac split_outcomes :=
  repeat (match goal with
         | |- context [match ?o with Resolved _ => _ | Rejected _ => _ end] =>
             destruct o as [?|?]
         | |- context [if truthy ?v then _ else _] => destruct (truthy v)
         | |- context [match ?v with Some _ => _ | None => _ end] =>
             destruct v as [?|]
         | u : unit |- _ => destruct u
         end; world_simpl).

Ltac by_event ev :=
  destruct ev as [name value | | coords | err | svc | location |
                  | svc [|] locationId];
  handler_unfold; split_outcomes.

(** No handler touches [loading] or [error]. *)
Lemma handle_keeps_status (ev : Event) (w : World) :
  loading (component (run (handle Number_toString ev) w))
    = loading (component w)
  ∧ error (component (run (handle Number_toString ev) w))
    = error (component w).
Proof. by_event ev; split; reflexivity. Qed.

(** X3. No sequence of user events and geolocation answers changes
    [loading] or [error]: a component that shows the form keeps showing
    it, and a failed mutation never brings up the spinner or the error
    box. *)
Theorem events_keep_status (evs : list Event) (w : World) :
  let w' := runEvents Number_toString evs w in
  loading (component w') = loading (component w)
  ∧ error (component w') = error (component w)
  ∧ (∀ page, render Number_toString (component w) = Form page ->
       ∃ page', render Number_toString (component w') = Form page').
Proof.
  cbv zeta.
  assert (Hstatus : loading (component (runEvents Number_toString evs w))
                      = loading (component w)
                    ∧ error (component (runEvents Number_toString evs w))
                      = error (component w)).
  { revert w. induction evs as [|ev evs IH]; intros w; [split; reflexivity|].
    cbn [runEvents]. destruct (IH (run (handle Number_toString ev) w)) as [Hl He].
    destruct (handle_keeps_status ev w) as [Hl' He'].
    split; congruence. }
  destruct Hstatus as [Hl He]. split; [exact Hl|]. split; [exact He|].
  intros page. unfold render. rewrite Hl, He.
  destruct (loading (component w)); [discriminate|].
  destruct (error (component w)) as [text|]; [|eauto].
  destruct (truthy (Some text)); [discriminate | eauto].
Qed.

Lemma handle_calls (ev : Event) (w : World) :
  length (calls (run (handle Number_toString ev) w))
  = (length (calls w) + (if isMutation ev then 1 else 0))%nat.
Proof.
  by_event ev; cbn [isMutation]; rewrite ?length_app; cbn [length]; lia.
Qed.

(** X4. Over any sequence of events the backend is called exactly once
    per submit and once per confirmed delete, and by nothing else. *)
Theorem events_call_once_per_mutation (evs : list Event) (w : World) :
  length (calls (runEvents Number_toString evs w))
  = (length (calls w) + length (List.filter isMutation evs))%nat.
Proof.
  revert w. induction evs as [|ev evs IH]; intros w; [cbn; lia|].
  cbn [runEvents List.filter]. rewrite IH, handle_calls.
  destruct (isMutation ev); cbn [length]; lia.
Qed.


(** X5. The form tells what a submit will do: when it is rendered
    with the cancel button, the heading "Edit Location" and the label
    "Update", a submit calls update with the editing id; otherwise it
    shows "Add New Location" and "Add", and a submit calls create. *)
Theorem form_mode_matches_submit (svc : Service) (w : World) (page : Page) :
  render Number_toString (component w) = Form page ->
  let data := locationDataOf (formData (component w)) in
  (cancelShown page = true ∧ heading page = "Edit Location"
   ∧ submitLabel page = "Update"
   ∧ ∃ editingId,
       editingLocationId (component w) = Some editingId
       ∧ calls (run (handleSubmit svc) w)
         = (calls w ++ [CallUpdateLocation editingId data])%list)
  ∨ (cancelShown page = false ∧ heading page = "Add New Location"
     ∧ submitLabel page = "Add"
     ∧ calls (run (handleSubmit svc) w)
       = (calls w ++ [CallAddLocation data])%list).
Proof.
  intros Hview. cbv zeta.
  assert (Hpage : page = renderPage Number_toString (component w)).
  { unfold render in Hview. destruct (loading (component w)); [discriminate|].
    destruct (error (component w)) as [text|].
    - destruct (truthy (Some text)); [discriminate | congruence].
    - congruence. }
  subst page. unfold renderPage. cbn [cancelShown heading submitLabel].
  destruct (submit_issues_call svc w) as (call & settled & Hs & Hcalls).
  destruct Hs as [Hf | editingId Hid Hne].
  - right. rewrite Hf. auto.
  - left. rewrite Hid. apply truthy_Some in Hne. rewrite Hne. eauto 10.
Qed.

(** X6. A submit and a confirmed delete never leave their loading toast
    behind: the toast they open ends as a success or an error toast,
    one toast id is used, and every other toast is left as it was. *)
Theorem mutation_toast_resolves (svc : Service) (w : World)
    (locationId : string) :
  let resolved (w' : World) :=
    (∃ t, toasts w' !! nextToast w = Some t ∧ kind t ≠ ToastLoading)
    ∧ (∀ i, i ≠ nextToast w -> toasts w' !! i = toasts w !! i)
    ∧ nextToast w' = S (nextToast w) in
  resolved (run (handleSubmit svc) w)
  ∧ resolved (run (handleDelete svc true locationId) w).
Proof.
  cbv zeta. split; handler_unfold; split_outcomes;
    (split; [rewrite lookup_insert_eq; eexists; split;
               [reflexivity | discriminate]|]);
    (split; [|reflexivity]);
    intros i Hi; rewrite !lookup_insert_ne by congruence; reflexivity.
Qed.

(** X7. A resolved update keeps the length of the list; it leaves the
    list unchanged when no entry has the editing id (the update call is
    made all the same), and keeps the sequence of identifiers when the
    returned record bears the editing id. *)
Theorem update_keeps_shape (svc : Service) (w : World)
    (editingId : string) (updated : Location.t) :
  editingLocationId (component w) = Some editingId ->
  editingId ≠ "" ->
  updateLocation svc editingId (locationDataOf (formData (component w)))
    = Resolved updated ->
  let before := locations (component w) in
  let after := locations (component (run (handleSubmit svc) w)) in
  length after = length before
  ∧ (editingId ∉ map Location.id before -> after = before)
  ∧ (Location.id updated = editingId ->
     map Location.id after = map Location.id before).
Proof.
  intros Hid Hne Hres. cbv zeta.
  pose proof (settles_update svc (component w) editingId Hid Hne) as Hs.
  rewrite Hres in Hs. rewrite (submit_resolved _ _ _ _ Hs).
  cbn [component locations].
  generalize (locations (component w)). intros l.
  split; [apply length_map|]. split.
  - intros Hnotin. induction l as [|loc l IH]; [reflexivity|].
    cbn [map] in *. apply not_elem_of_cons in Hnotin as [Hhead Htail].
    rewrite IH by exact Htail.
    destruct (String.eqb_spec (Location.id loc) editingId) as [Heq|_];
      [congruence | reflexivity].
  - intros Hsame. rewrite map_map. apply map_ext. intros loc.
    destruct (String.eqb_spec (Location.id loc) editingId) as [Heq|_];
      congruence.
Qed.

(** X8. After a confirmed, resolved delete no entry bears the deleted
    identifier, the list is no longer than before and holds exactly the
    other entries; deleting an identifier the list does not contain
    leaves it unchanged. *)
Theorem delete_leaves_no_target (svc : Service) (w : World)
    (locationId : string) :
  deleteLocation svc locationId = Resolved tt ->
  let before := locations (component w) in
  let after := locations (component (run (handleDelete svc true locationId) w)) in
  (locationId ∉ map Location.id after)
  ∧ (length after <= length before)%nat
  ∧ (locationId ∉ map Location.id before -> after = before)
  ∧ (∀ loc, loc ∈ after ↔ loc ∈ before ∧ Location.id loc ≠ locationId).
Proof.
  intros Hres. cbv zeta. rewrite (delete_resolved _ _ _ Hres).
  cbn [component locations].
  rewrite (List_filter_decide _ (fun loc => Location.id loc ≠ locationId))
    by (intros loc; rewrite negb_true_iff; apply String.eqb_neq).
  split; [|split; [|split]].
  - intros Hin. apply list_elem_of_fmap in Hin as (loc & Heq & Hloc).
    apply list_elem_of_filter in Hloc as [Hne _]. congruence.
  - apply length_filter.
  - intros Hnotin. induction (locations (component w)) as [|loc l IH];
      [reflexivity|].
    cbn [map] in Hnotin. apply not_elem_of_cons in Hnotin as [Hhead Htail].
    rewrite filter_cons_True by congruence. rewrite IH by exact Htail.
    reflexivity.
  - intros loc. rewrite list_elem_of_filter. tauto.
Qed.


Lemma runEvents_app (evs1 evs2 : list Event) (w : World) :
  runEvents Number_toString (evs1 ++ evs2) w
  = runEvents Number_toString evs2 (runEvents Number_toString evs1 w).
Proof. revert w. induction evs1 as [|ev evs1 IH]; intros w; cbn; auto. Qed.

Lemma offline_event_keeps_locations (ev : Event) (w : World) :
  offlineEvent ev ->
  locations (component (run (handle Number_toString ev) w))
  = locations (component w).
Proof.
  destruct ev as [name value | | coords | err | svc | location |
                  | svc [|] locationId]; cbn [offlineEvent handle];
    try reflexivity.
  - intros (Hadd & Hupd & _).
    destruct (submit_issues_call svc w) as (call & settled & Hs & _).
    destruct settled as [returned|err].
    + exfalso. remember (Resolved returned) as o eqn:Ho.
      destruct Hs as [Hf | editingId Hid Hne].
      * specialize (Hadd (locationDataOf (formData (component w)))).
        rewrite Ho in Hadd. exact Hadd.
      * specialize (Hupd editingId (locationDataOf (formData (component w)))).
        rewrite Ho in Hupd. exact Hupd.
    + rewrite (submit_rejected _ _ _ _ Hs). reflexivity.
  - intros (_ & _ & Hdel). specialize (Hdel locationId).
    destruct (deleteLocation svc locationId) as [[]|err] eqn:Hres;
      [contradiction|].
    rewrite (delete_rejected _ _ _ _ Hres). reflexivity.
Qed.

(** X9. Against backends that reject every call, no sequence of events
    changes the location list. *)
Theorem offline_events_keep_locations (evs : list Event) (w : World) :
  Forall offlineEvent evs ->
  locations (component (runEvents Number_toString evs w))
  = locations (component w).
Proof.
  intros Hall. revert w.
  induction Hall as [|ev evs Hev Hall IH]; intros w; [reflexivity|].
  cbn [runEvents]. rewrite IH. apply offline_event_keeps_locations, Hev.
Qed.

(** X10. [handleDelete] never touches the form or the editing id, also
    when it deletes the location being edited: after edit and delete of
    the same location (with a non-empty identifier) the form is still in
    edit mode, and the next submit calls update with the deleted
    identifier. *)
Theorem delete_keeps_edit_mode (svc svc' : Service) (confirmed : bool)
    (w : World) (location : Location.t) :
  Location.id location ≠ "" ->
  let editingId := Location.id location in
  let w1 := run (handleEdit Number_toString location) w in
  let w2 := run (handleDelete svc confirmed editingId) w1 in
  formData (component w2) = formData (component w1)
  ∧ editingLocationId (component w2) = Some editingId
  ∧ ∃ data,
      calls (run (handleSubmit svc') w2)
      = (calls w2 ++ [CallUpdateLocation editingId data])%list.
Proof.
  intros Hne. cbv zeta.
  set (w1 := run (handleEdit Number_toString location) w).
  set (w2 := run (handleDelete svc confirmed (Location.id location)) w1).
  assert (Hform : formData (component w2) = formData (component w1)
                  ∧ editingLocationId (component w2)
                    = Some (Location.id location)).
  { subst w2 w1. destruct confirmed; handler_unfold; split_outcomes;
      split; reflexivity. }
  destruct Hform as [Hform Hid]. split; [exact Hform|]. split; [exact Hid|].
  pose proof (settles_update svc' (component w2) _ Hid Hne) as Hs.
  eexists.
  destruct (updateLocation svc' (Location.id location) _) as [r|e] eqn:Hres.
  - rewrite (submit_resolved _ _ _ _ Hs). reflexivity.
  - rewrite (submit_rejected _ _ _ _ Hs). reflexivity.
Qed.

(** X11. From an empty form that edits nothing, edit followed by cancel
    gives back exactly the state before. *)
Theorem cancel_undoes_edit (w : World) (location : Location.t) :
  formData (component w) = FormData.empty ->
  editingLocationId (component w) = None ->
  run (handleCancelEdit) (run (handleEdit Number_toString location) w) = w.
Proof.
  destruct w as [[l ld er fd ed] ts nt cs]. cbn. intros -> ->. reflexivity.
Qed.

(** X12. The success callback of the position request takes every toast
    off the screen, shows the one toast "Location fetched!", and fills
    the form with both coordinates printed with six decimals, leaving
    the list, the editing id and the call log alone.  The error
    callback likewise shows the one toast ["Error: "] followed by the
    message, and leaves the component state unchanged. *)
Theorem position_callbacks (coords : Coordinates) (err : Error) (w : World) :
  (let w' := run (positionFound Number_toString coords) w in
   toasts w' = {[ nextToast w := mkToast ToastSuccess "Location fetched!" ]}
   ∧ formData (component w')
     = FormData.mk (toFixed Number_toString 6 (latitude coords))
                   (toFixed Number_toString 6 (longitude coords))
   ∧ locations (component w') = locations (component w)
   ∧ editingLocationId (component w') = editingLocationId (component w)
   ∧ calls w' = calls w)
  ∧ (let w' := run (positionFailed err) w in
     toasts w' = {[ nextToast w := mkToast ToastError ("Error: " ++ message err) ]}
     ∧ component w' = component w
     ∧ calls w' = calls w).
Proof.
  split; cbv zeta; handler_unfold; rewrite insert_empty; auto 10.
Qed.

(** X13. For coordinates below [10^21] in magnitude, what a position
    fix puts in the form is read back by a submit as the coordinates
    rounded to six decimals: the data sent is the binary64 value nearest
    to each rounded coordinate, in a create call when nothing is being
    edited. *)
Theorem position_then_submit (svc : Service) (coords : Coordinates)
    (w : World) :
  fixable (latitude coords) -> fixable (longitude coords) ->
  let w' := run (positionFound Number_toString coords) w in
  let data := LocationData.mk (roundedTo 6 (latitude coords))
                              (roundedTo 6 (longitude coords)) in
  locationDataOf (formData (component w')) = data
  ∧ (truthy (editingLocationId (component w)) = false ->
     calls (run (handleSubmit svc) w') = (calls w ++ [CallAddLocation data])%list).
Proof.
  intros Hlat Hlon. cbv zeta.
  assert (Hform : formData (component (run (positionFound Number_toString coords) w))
                  = FormData.mk (toFixed Number_toString 6 (latitude coords))
                                (toFixed Number_toString 6 (longitude coords)))
    by reflexivity.
  assert (Hid : editingLocationId
                  (component (run (positionFound Number_toString coords) w))
                = editingLocationId (component w)) by reflexivity.
  assert (Hcalls : calls (run (positionFound Number_toString coords) w) = calls w)
    by reflexivity.
  assert (Hdata : locationDataOf
                    (formData (component (run (positionFound Number_toString coords) w)))
                  = LocationData.mk (roundedTo 6 (latitude coords))
                                    (roundedTo 6 (longitude coords))).
  { rewrite Hform. unfold locationDataOf. cbn [FormData.Latitude FormData.Longitude].
    rewrite !parseFloat_toFixed by assumption. reflexivity. }
  split; [exact Hdata|].
  intros Hf. rewrite <- Hid in Hf.
  pose proof (settles_add svc _ Hf) as Hs. rewrite Hdata in Hs.
  rewrite <- Hcalls.
  destruct (addLocation svc _) as [r|e] eqn:Hres.
  - rewrite (submit_resolved _ _ _ _ Hs). reflexivity.
  - rewrite (submit_rejected _ _ _ _ Hs). reflexivity.
Qed.


Lemma addition_step (a : Addition) (w : World) :
  truthy (editingLocationId (component w)) = false ->
  additionResolves a ->
  let w' := runEvents Number_toString (additionEvents a) w in
  locations (component w') = additionReturned a :: locations (component w)
  ∧ editingLocationId (component w') = None.
Proof.
  intros Hf Hres. cbv zeta. unfold additionEvents. cbn [runEvents handle].
  set (w2 := run (handleInputChange "Longitude" (typedLongitude a))
               (run (handleInputChange "Latitude" (typedLatitude a)) w)).
  assert (Hw2 : formData (component w2)
                = FormData.mk (typedLatitude a) (typedLongitude a)
                ∧ editingLocationId (component w2) = editingLocationId (component w)
                ∧ locations (component w2) = locations (component w))
    by (subst w2; repeat split; reflexivity).
  destruct Hw2 as (Hform & Hid & Hloc).
  rewrite <- Hid in Hf. pose proof (settles_add (additionService a) _ Hf) as Hs.
  rewrite Hform in Hs. unfold additionResolves in Hres. rewrite Hres in Hs.
  rewrite (submit_resolved _ _ _ _ Hs). cbn [component locations editingLocationId].
  rewrite Hloc. split; reflexivity.
Qed.

(** X14. Typing and submitting one location after another, each create
    call resolving, puts the returned records in front of the list in
    reverse order of their submission, newest first, and leaves the
    component in add mode. *)
Theorem additions_newest_first (additions : list Addition) (w : World) :
  truthy (editingLocationId (component w)) = false ->
  Forall additionResolves additions ->
  let w' := runEvents Number_toString (concat (map additionEvents additions)) w in
  locations (component w')
  = (rev (map additionReturned additions) ++ locations (component w))%list
  ∧ truthy (editingLocationId (component w')) = false.
Proof.
  intros Hf Hall. cbv zeta. revert w Hf.
  induction Hall as [|a additions Ha Hall IH]; intros w Hf;
    [split; [reflexivity | exact Hf]|].
  cbn [map concat rev]. rewrite runEvents_app.
  destruct (addition_step a w Hf Ha) as [Hloc Hid]. cbv zeta in Hloc, Hid.
  destruct (IH (runEvents Number_toString (additionEvents a) w)) as [Hloc' Hid'];
    [rewrite Hid; reflexivity|].
  split; [|exact Hid'].
  rewrite Hloc', Hloc, <- app_assoc. reflexivity.
Qed.

End LocationEventsFacts.

Section LocationEventsRuns.
Import Js LocationManager Sample LocationScenario.

Lemma form_mode_matches_submit_witness :
  render Number_toString (component listed)
    = Form (renderPage Number_toString (component listed))
  ∧ calls (run (handleSubmit storingService) listed)
    = [CallAddLocation (locationDataOf FormData.empty)].
Proof.
  split; [reflexivity|].
  destruct (form_mode_matches_submit Number_toString storingService listed _
              eq_refl) as [(Hcancel & _) | (_ & _ & _ & Hcalls)];
    [discriminate Hcancel | exact Hcalls].
Defined.

Lemma update_keeps_shape_witness :
  editingLocationId (component editingImphal) = Some "loc-2"
  ∧ "loc-2" ≠ ""
  ∧ length (locations (component (run (handleSubmit storingService)
                                      editingImphal))) = 2%nat
  ∧ map Location.id
      (locations (component (run (handleSubmit storingService) editingImphal)))
    = ["loc-1"; "loc-2"].
Proof.
  assert (Hne : "loc-2" ≠ "") by discriminate.
  assert (Hres : updateLocation storingService "loc-2"
                   (locationDataOf (formData (component editingImphal)))
                 = Resolved updatedImphal) by (vm_compute; reflexivity).
  destruct (update_keeps_shape storingService editingImphal "loc-2"
              updatedImphal eq_refl Hne Hres) as (Hlen & _ & Hids).
  split; [reflexivity|]. split; [exact Hne|]. split; [exact Hlen|].
  exact (Hids eq_refl).
Defined.

Lemma delete_leaves_no_target_witness :
  deleteLocation storingService "loc-1" = Resolved tt
  ∧ "loc-1" ∉ map Location.id
      (locations (component (run (handleDelete storingService true "loc-1")
                                 listed))).
Proof.
  split; [reflexivity|].
  exact (proj1 (delete_leaves_no_target storingService listed "loc-1" eq_refl)).
Defined.

Lemma offline_events_keep_locations_witness :
  Forall offlineEvent offlineTrace
  ∧ locations (component (runEvents Number_toString offlineTrace listed))
    = [delhi; imphal].
Proof.
  assert (Hoff : rejectsAll offlineService)
    by (split; [|split]; intros; exact I).
  assert (Hall : Forall offlineEvent offlineTrace)
    by (repeat constructor; exact Hoff).
  split; [exact Hall|].
  exact (offline_events_keep_locations Number_toString offlineTrace listed Hall).
Defined.

Lemma delete_keeps_edit_mode_witness :
  Location.id imphal ≠ ""
  ∧ editingLocationId
      (component (run (handleDelete storingService true "loc-2") editingImphal))
    = Some "loc-2".
Proof.
  assert (Hne : Location.id imphal ≠ "") by discriminate.
  split; [exact Hne|].
  exact (proj1 (proj2 (delete_keeps_edit_mode Number_toString storingService
                         storingService true listed imphal Hne))).
Defined.

Lemma cancel_undoes_edit_witness :
  run handleCancelEdit (run (handleEdit Number_toString imphal) listed)
  = listed.
Proof.
  exact (cancel_undoes_edit Number_toString listed imphal eq_refl eq_refl).
Defined.

Lemma position_then_submit_witness :
  fixable (latitude positionFix) ∧ fixable (longitude positionFix)
  ∧ locationDataOf
      (formData (component (run (positionFound Number_toString positionFix) listed)))
    = LocationData.mk (roundedTo 6 (latitude positionFix)) (roundedTo 6 (longitude positionFix)).
Proof.
  assert (Hlat : fixable (latitude positionFix)) by (vm_compute; reflexivity).
  assert (Hlon : fixable (longitude positionFix)) by (vm_compute; reflexivity).
  split; [exact Hlat|]. split; [exact Hlon|].
  exact (proj1 (position_then_submit Number_toString storingService positionFix listed
                  Hlat Hlon)).
Defined.

Lemma additions_newest_first_witness :
  Forall additionResolves twoAdditions
  ∧ locations
      (component (runEvents Number_toString
                    (concat (map additionEvents twoAdditions)) listed))
    = [Location.mk "loc-3" (literal 24.817) (literal 93.9368);
       Location.mk "loc-3" (literal 12.34) (literal 56.78); delhi; imphal].
Proof.
  assert (Hall : Forall additionResolves twoAdditions)
    by (repeat constructor; vm_compute; reflexivity).
  split; [exact Hall|].
  exact (proj1 (additions_newest_first Number_toString twoAdditions listed
                  eq_refl Hall)).
Defined.

(** The fix of the scenario, printed and read back. *)
Example position_fix_run :
  formData (component (run (positionFound Number_toString positionFix) listed))
    = FormData.mk "24.817000" "93.936800"
  ∧ roundedTo 6 (latitude positionFix) = literal 24.817
  ∧ roundedTo 6 (longitude positionFix) = literal 93.9368.
Proof. vm_compute. repeat split; reflexivity. Qed.

Example toFixed_samples :
  toFixed Number_toString 6 (literal 12.345678901) = "12.345679"
  ∧ toFixed Number_toString 6 (literal (-0.0000001)) = "-0.000000"
  ∧ toFixed Number_toString 2 (literal 1.005) = "1.00"
  ∧ toFixed Number_toString 0 (literal 2.5) = "3"
  ∧ toFixed Number_toString 3 (literal 999.9996) = "1000.000".
Proof. vm_compute. repeat split; reflexivity. Qed.

End LocationEventsRuns.

(* ===================================================================== *)
(** * More of [AppearanceSettings]: theme clicks and system changes      *)
(* ===================================================================== *)

Section ThemeEventsFacts.
Import Js AppearanceSettings.

(** X15. Of two theme selections in a row only the second counts: the
    persisted key, the root class list and the component state are as
    if the first had not happened.  In particular selecting the same
    theme twice is selecting it once. *)
Theorem last_theme_choice_wins (first second : string) (w : World) :
  handleThemeChange second (handleThemeChange first w)
  = handleThemeChange second w.
Proof.
  unfold handleThemeChange.
  destruct (String.eqb first "system"), (String.eqb second "system");
    cbn [browser]; f_equal;
    unfold classList_toggle, removeItem, setItem;
    cbn [localStorage classList prefersDark listening];
    f_equal;
    try (apply set_eq; intros x; destruct (decide (x = "dark"));
         repeat match goal with
                | |- context [if ?c then _ else _] => destruct c
                end;
         rewrite ?elem_of_union, ?elem_of_difference, ?elem_of_union,
           ?elem_of_singleton; tauto).
  - apply delete_delete_eq.
  - apply insert_delete_eq.
  - apply delete_insert_eq.
  - apply insert_insert_eq.
Qed.

(** X16. After a click on a theme button that button, and no other, is
    drawn as selected, and a component mounted afterwards on the same
    browser starts with the same selection. *)
Theorem theme_choice_survives_reload (mode : ThemeMode) (w : World) :
  let w' := clickTheme mode w in
  theme w' = modeName mode
  ∧ theme (mount (browser w')) = modeName mode
  ∧ ∀ other, highlighted other w' = true ↔ other = mode.
Proof.
  cbv zeta. unfold clickTheme, highlighted, mount, initialTheme, getItem.
  destruct mode; cbn [handleThemeChange modeName String.eqb Ascii.eqb Bool.eqb
                      browser theme classList_toggle setItem removeItem
                      localStorage];
    rewrite ?lookup_insert_eq, ?lookup_delete_eq;
    (split; [reflexivity|]); (split; [reflexivity|]);
    intros []; cbn; split; congruence.
Qed.

(** X17. A theme click or a system colour-scheme change touches nothing
    but the [theme] key and the [dark] class: every other persisted key
    and every other class of the root stay as they were, and the
    listener stays registered. *)
Theorem theme_events_frame (ev : Event) (w : World) :
  let w' := handle ev w in
  (∀ key, key ≠ "theme" ->
     localStorage (browser w') !! key = localStorage (browser w) !! key)
  ∧ (∀ token, token ≠ "dark" ->
       token ∈ classList (browser w') ↔ token ∈ classList (browser w))
  ∧ listening (browser w') = listening (browser w).
Proof.
  cbv zeta. destruct ev as [mode | dark].
  - unfold handle, clickTheme, handleThemeChange.
    destruct (String.eqb (modeName mode) "system");
      cbn [browser classList_toggle setItem removeItem localStorage classList
           prefersDark listening];
      (split; [intros key Hkey;
               rewrite ?lookup_insert_ne, ?lookup_delete_ne by congruence;
               reflexivity|]);
      (split; [|reflexivity]); intros token Htoken;
      repeat match goal with
             | |- context [if ?c then _ else _] => destruct c
             end;
      rewrite ?elem_of_union, ?elem_of_difference, ?elem_of_singleton;
      tauto.
  - unfold handle, systemSchemeChange, handleChange. cbv zeta.
    cbn [listening localStorage classList prefersDark browser].
    destruct (listening (browser w)); [|cbn; auto].
    destruct (negb _); cbn [browser classList_toggle localStorage classList
                                    prefersDark listening];
      (split; [reflexivity|]); (split; [|reflexivity]); intros token Htoken;
      [|reflexivity].
    destruct dark;
      rewrite ?elem_of_union, ?elem_of_difference, ?elem_of_singleton;
      tauto.
Qed.

Lemma click_in_sync (mode : ThemeMode) (w : World) :
  inSync (browser (clickTheme mode w))
  ∧ theme (clickTheme mode w) = initialTheme (browser (clickTheme mode w)).
Proof.
  unfold inSync, effectiveDark, initialTheme, getItem, clickTheme, handleThemeChange.
  destruct mode; cbn [modeName String.eqb Ascii.eqb Bool.eqb browser theme];
    rewrite darkFlag_toggle;
    cbn [classList_toggle setItem removeItem localStorage prefersDark];
    rewrite ?lookup_insert_eq, ?lookup_delete_eq; split; reflexivity.
Qed.

Lemma system_change_in_sync (dark : bool) (w : World) :
  listening (browser w) = true ->
  inSync (browser w) ->
  inSync (browser (systemSchemeChange dark w))
  ∧ initialTheme (browser (systemSchemeChange dark w))
    = initialTheme (browser w)
  ∧ theme (systemSchemeChange dark w) = theme w
  ∧ listening (browser (systemSchemeChange dark w)) = true.
Proof.
  intros Hreg Hsync. unfold systemSchemeChange. cbv zeta.
  cbn [listening browser theme]. rewrite Hreg.
  unfold inSync, effectiveDark, initialTheme, handleChange, getItem in *.
  cbn [localStorage prefersDark].
  destruct (localStorage (browser w) !! "theme") as [persisted|] eqn:Hp.
  - destruct (truthy (Some persisted)) eqn:Ht; cbn [negb].
    + cbn [localStorage prefersDark listening browser]. rewrite Hp, Ht.
      repeat split; try reflexivity. exact Hsync.
    + rewrite darkFlag_toggle.
      cbn [classList_toggle localStorage prefersDark listening]. rewrite Hp, Ht.
      repeat split; reflexivity.
  - cbn [truthy negb]. rewrite darkFlag_toggle.
    cbn [classList_toggle localStorage prefersDark listening]. rewrite Hp.
    repeat split; reflexivity.
Qed.

Lemma click_keeps_listening (mode : ThemeMode) (w : World) :
  listening (browser (clickTheme mode w)) = listening (browser w).
Proof. destruct mode; reflexivity. Qed.

(** X18. While the component is mounted, from the first theme click on
    and through any further clicks and system changes, the root dark
    flag shows the effective theme (the persisted choice, the system
    preference when there is none), and the selected button is the one
    a reload would select. *)
Theorem theme_stays_in_sync (evs : list Event) (mode : ThemeMode) (w : World) :
  listening (browser w) = true ->
  let w' := runEvents evs (clickTheme mode w) in
  inSync (browser w')
  ∧ theme w' = initialTheme (browser w').
Proof.
  intros Hreg. cbv zeta.
  assert (Hinv : listening (browser (clickTheme mode w)) = true
                 ∧ inSync (browser (clickTheme mode w))
                 ∧ theme (clickTheme mode w)
                   = initialTheme (browser (clickTheme mode w))).
  { rewrite click_keeps_listening. split; [exact Hreg|]. apply click_in_sync. }
  revert Hinv. generalize (clickTheme mode w). clear w Hreg.
  induction evs as [|ev evs IH]; intros w (Hreg & Hsync & Htheme);
    [split; assumption|].
  cbn [runEvents]. apply IH. destruct ev as [mode' | dark]; cbn [handle].
  - rewrite click_keeps_listening. split; [exact Hreg|]. apply click_in_sync.
  - destruct (system_change_in_sync dark w Hreg Hsync) as (Hs & Hi & Ht & Hl).
    repeat split; [exact Hl | exact Hs | congruence].
Qed.

End ThemeEventsFacts.

Section ThemeEventsRuns.
Import AppearanceSettings ThemeScenario.

Lemma theme_stays_in_sync_witness :
  listening (browser (mount freshBrowser)) = true
  ∧ inSync (browser (runEvents themeTrace
                       (clickTheme Light (mount freshBrowser))))
  ∧ theme (runEvents themeTrace (clickTheme Light (mount freshBrowser)))
    = "system".
Proof.
  split; [reflexivity|].
  destruct (theme_stays_in_sync themeTrace Light (mount freshBrowser) eq_refl)
    as [Hsync Htheme].
  split; [exact Hsync | reflexivity].
Defined.

End ThemeEventsRuns.

(* ===================================================================== *)
(** * More of [Overview]: the aggregates                                 *)
(* ===================================================================== *)

Section StatusFacts.
Import Js Overview.

Lemma recorded_bump (key k : string) (acc : list Entry) :
  recorded key (bump k acc)
  = (recorded key acc + (if decide (key = k) then 1 else 0))%nat.
Proof.
  induction acc as [|e acc IH]; cbn [bump recorded].
  - cbn [name value]. destruct (String.eqb_spec k key), (decide (key = k));
      congruence || lia.
  - destruct (String.eqb_spec (name e) k) as [Hek|Hek]; cbn [recorded name value].
    + subst k. destruct (String.eqb_spec (name e) key), (decide (key = name e));
        congruence || lia.
    + destruct (String.eqb_spec (name e) key) as [Hkey|Hkey].
      * destruct (decide (key = k)); [congruence | lia].
      * exact IH.
Qed.

Lemma names_bump (k : string) (acc : list Entry) :
  name <$> bump k acc
  = if decide (k ∈ name <$> acc) then name <$> acc
    else ((name <$> acc) ++ [k])%list.
Proof.
  induction acc as [|e acc IH]; cbn [bump fmap list_fmap].
  - destruct (decide (k ∈ [])) as [Hin|_]; [inversion Hin | reflexivity].
  - destruct (String.eqb_spec (name e) k) as [Hek|Hek]; cbn [fmap list_fmap name].
    + subst k. rewrite decide_True by apply list_elem_of_here. reflexivity.
    + change (list_fmap Entry string name) with (fmap (M:=list) name).
      rewrite IH. destruct (decide (k ∈ name <$> acc)) as [Hin|Hin].
      * rewrite decide_True by (apply list_elem_of_further, Hin). reflexivity.
      * rewrite decide_False; [reflexivity|].
        intros [Heq|Hin']%elem_of_cons; congruence.
Qed.

Lemma NoDup_bump (k : string) (acc : list Entry) :
  NoDup (name <$> acc) -> NoDup (name <$> bump k acc).
Proof.
  intros Hnd. rewrite names_bump. destruct (decide _) as [Hin|Hin]; [exact Hnd|].
  apply NoDup_app. split; [exact Hnd|]. split; [|apply NoDup_singleton].
  intros x Hx Hk%list_elem_of_singleton. congruence.
Qed.

Lemma positive_bump (k : string) (acc : list Entry) :
  Forall (fun e => (0 < value e)%nat) acc ->
  Forall (fun e => (0 < value e)%nat) (bump k acc).
Proof.
  induction 1 as [|e acc He Hacc IH]; cbn [bump].
  - repeat constructor.
  - destruct (String.eqb (name e) k); constructor; cbn; auto; lia.
Qed.

Lemma sum_bump (k : string) (acc : list Entry) :
  sum_list_with value (bump k acc) = S (sum_list_with value acc).
Proof.
  induction acc as [|e acc IH]; cbn [bump sum_list_with]; [reflexivity|].
  destruct (String.eqb (name e) k); cbn [sum_list_with value]; [lia|].
  rewrite IH. lia.
Qed.

Lemma recorded_elem (e : Entry) (acc : list Entry) :
  NoDup (name <$> acc) -> e ∈ acc -> value e = recorded (name e) acc.
Proof.
  induction acc as [|e' acc IH]; intros Hnd Hin; [inversion Hin|].
  cbn [fmap list_fmap] in Hnd. apply NoDup_cons in Hnd as [Hfresh Hnd].
  cbn [recorded]. apply elem_of_cons in Hin as [->|Hin].
  - rewrite String.eqb_refl. reflexivity.
  - destruct (String.eqb_spec (name e') (name e)) as [Heq|_]; [|auto].
    exfalso. apply Hfresh. rewrite Heq. apply list_elem_of_fmap. eauto.
Qed.

Lemma tally_snoc (students : list Student.t) (s : Student.t) :
  tally (students ++ [s]) = bump (Student.Status s) (tally students).
Proof. unfold tally. rewrite fold_left_app. reflexivity. Qed.

Lemma statusCount_snoc (key : string) (students : list Student.t)
    (s : Student.t) :
  statusCount key (students ++ [s])
  = (statusCount key students
     + (if decide (key = Student.Status s) then 1 else 0))%nat.
Proof.
  unfold statusCount. rewrite filter_app, length_app, filter_cons, filter_nil.
  destruct (decide (Student.Status s = key)), (decide (key = Student.Status s));
    congruence || reflexivity.
Qed.

Lemma tally_spec (students : list Student.t) :
  NoDup (name <$> tally students)
  ∧ Forall (fun e => (0 < value e)%nat) (tally students)
  ∧ (∀ key, recorded key (tally students) = statusCount key students)
  ∧ sum_list_with value (tally students) = length students
  ∧ (∀ s, s ∈ students -> Student.Status s ∈ name <$> tally students).
Proof.
  induction students as [|s students IH] using rev_ind.
  - repeat split; try (constructor || reflexivity). intros s Hs. inversion Hs.
  - destruct IH as (Hnd & Hpos & Hrec & Hsum & Hall). rewrite tally_snoc.
    split; [apply NoDup_bump, Hnd|]. split; [apply positive_bump, Hpos|].
    split; [|split].
    + intros key. rewrite recorded_bump, Hrec, statusCount_snoc. reflexivity.
    + rewrite sum_bump, Hsum, length_app. cbn. lia.
    + intros s' Hs'. rewrite names_bump.
      apply elem_of_app in Hs' as [Hs'|Hs'%list_elem_of_singleton].
      * specialize (Hall s' Hs'). destruct (decide _); [exact Hall|].
        apply elem_of_app. auto.
      * subst s'. destruct (decide _) as [Hin|Hin]; [exact Hin|].
        apply elem_of_app. right. apply list_elem_of_singleton. reflexivity.
Qed.

Lemma insertIndexed_perm (i : Z) (e : Entry) (sorted : list (Z * Entry)) :
  snd <$> insertIndexed i e sorted ≡ₚ e :: (snd <$> sorted).
Proof.
  induction sorted as [|[j e'] sorted IH]; cbn [insertIndexed]; [reflexivity|].
  destruct (i <=? j); [reflexivity|].
  cbn [fmap list_fmap snd]. change (list_fmap _ _ snd) with (fmap (M:=list) (@snd Z Entry)).
  rewrite IH. apply Permutation_swap.
Qed.

Lemma indexedEntries_perm (acc : list Entry) :
  snd <$> indexedEntries acc
  ≡ₚ filter (fun e => is_Some (arrayIndex (name e))) acc.
Proof.
  induction acc as [|e acc IH]; cbn [indexedEntries]; [reflexivity|].
  rewrite filter_cons. destruct (arrayIndex (name e)) as [i|] eqn:Hi.
  - rewrite decide_True by eauto. rewrite insertIndexed_perm, IH. reflexivity.
  - rewrite decide_False by (intros [? ?]; discriminate). exact IH.
Qed.

Lemma Object_entries_perm (acc : list Entry) : Object_entries acc ≡ₚ acc.
Proof.
  unfold Object_entries.
  change (map snd (indexedEntries acc)) with (snd <$> indexedEntries acc).
  rewrite indexedEntries_perm.
  rewrite (List_filter_decide _ (fun e => ¬ is_Some (arrayIndex (name e)))).
  - apply filter_app_complement.
  - intros e. rewrite negb_true_iff, bool_decide_eq_false. reflexivity.
Qed.

(** X19. When no status is a name inherited from [Object.prototype], the
    status distribution partitions the students: its values add up to
    the number of students, its names are distinct, each value is the
    number of students with that status and is at least 1, and every
    student's status has an entry. *)
Theorem status_distribution_partitions (students : list Student.t)
    (distribution : list Entry) :
  computeStatusDistribution students = Some distribution ->
  sum_list_with value distribution = length students
  ∧ NoDup (name <$> distribution)
  ∧ (∀ e, e ∈ distribution ->
       value e = statusCount (name e) students ∧ (0 < value e)%nat)
  ∧ (∀ s, s ∈ students -> Student.Status s ∈ name <$> distribution).
Proof.
  unfold computeStatusDistribution. destruct (existsb _ students); [discriminate|].
  intros [= <-]. fold (tally students).
  destruct (tally_spec students) as (Hnd & Hpos & Hrec & Hsum & Hall).
  pose proof (Object_entries_perm (tally students)) as Hperm.
  split; [rewrite Hperm; exact Hsum|].
  split; [rewrite Hperm; exact Hnd|]. split.
  - intros e He. rewrite Hperm in He. split.
    + rewrite <- Hrec. apply recorded_elem; assumption.
    + rewrite Forall_forall in Hpos. apply Hpos, He.
  - intros s Hs. rewrite Hperm. apply Hall, Hs.
Qed.

End StatusFacts.

Section AggregateFacts.
Import Js Overview.

Variable LocalTZA : Z -> Z.
Variable Date_parse : string -> JsDate.TimeValue.

Lemma two_filters_bound {A : Type} (f g : A -> bool) (l : list A) :
  (∀ x, f x = true -> g x = true -> False) ->
  (length (List.filter f l) + length (List.filter g l) <= length l)%nat
  ∧ ((∀ x, x ∈ l -> f x = true ∨ g x = true) ->
     (length (List.filter f l) + length (List.filter g l))%nat = length l).
Proof.
  intros Hdisj. induction l as [|x l [IHle IHeq]]; [split; reflexivity|].
  cbn [List.filter length].
  destruct (f x) eqn:Hf, (g x) eqn:Hg; cbn [length].
  - exfalso. eauto.
  - split; [lia|]. intros Hall. rewrite <- IHeq; [lia|].
    intros y Hy. apply Hall. apply list_elem_of_further, Hy.
  - split; [lia|]. intros Hall. rewrite <- IHeq; [lia|].
    intros y Hy. apply Hall. apply list_elem_of_further, Hy.
  - split; [lia|]. intros Hall.
    destruct (Hall x (list_elem_of_here _ _)); congruence.
Qed.

Lemma filter_filter_implied {A : Type} (f g : A -> bool) (l : list A) :
  (∀ x, f x = true -> g x = true) ->
  List.filter f (List.filter g l) = List.filter f l.
Proof.
  intros Himp. induction l as [|x l IH]; [reflexivity|].
  cbn [List.filter]. destruct (g x) eqn:Hg; cbn [List.filter].
  - rewrite IH. reflexivity.
  - destruct (f x) eqn:Hf; [|exact IH]. apply Himp in Hf. congruence.
Qed.

(** X20. Today's present and absent counts together never exceed
    today's total, which never exceeds the number of attendance
    records; they add up to the total when every record's status is
    ['Present'] or ['Absent']. *)
Theorem todays_attendance_bounds (now : Z)
    (attendance : list AttendanceRecord.t) :
  let today := computeTodaysAttendance LocalTZA Date_parse now attendance in
  (present today + absent today <= total today)%nat
  ∧ (total today <= length attendance)%nat
  ∧ ((∀ r, r ∈ attendance ->
        AttendanceRecord.Status r = "Present"
        ∨ AttendanceRecord.Status r = "Absent") ->
     (present today + absent today)%nat = total today).
Proof.
  cbv zeta. unfold computeTodaysAttendance. cbn [present absent total].
  set (todays := List.filter _ attendance).
  destruct (two_filters_bound
              (fun r => String.eqb (AttendanceRecord.Status r) "Present")
              (fun r => String.eqb (AttendanceRecord.Status r) "Absent")
              todays) as [Hle Heq].
  { intros r Hp%String.eqb_eq Ha%String.eqb_eq. congruence. }
  split; [exact Hle|]. split.
  - subst todays. apply filter_length_le.
  - intros Hall. apply Heq. intros r Hr. subst todays.
    apply list_elem_of_In, filter_In in Hr as [Hr _].
    apply list_elem_of_In in Hr.
    destruct (Hall r Hr) as [->| ->]; [left | right]; reflexivity.
Qed.

Lemma enrolledIn_same_id (c1 c2 : Course.t) (s : Student.t) :
  enrolledIn c1 s = true -> enrolledIn c2 s = true ->
  Course.id c1 = Course.id c2.
Proof.
  unfold enrolledIn. destruct (Student.Course s) as [c|]; [|discriminate].
  intros H1%String.eqb_eq H2%String.eqb_eq. congruence.
Qed.

Lemma course_distribution_sum (courses : list Course.t)
    (students : list Student.t) :
  sum_list_with value (computeCourseDistribution courses students)
  = sum_list_with (fun course => enrolment course students) courses.
Proof.
  unfold computeCourseDistribution.
  induction courses as [|course courses IH]; [reflexivity|].
  cbn [map List.filter value sum_list_with]. rewrite enrolledIn_count, <- IH.
  destruct (0 <? enrolment course students)%nat eqn:Hpos;
    cbn [sum_list_with value]; [reflexivity|].
  apply Nat.ltb_ge in Hpos. lia.
Qed.

(** X21. When the course identifiers are distinct, the values of the
    course distribution add up to the number of students whose course
    reference is one of the listed identifiers: no student is counted
    twice, and the sum is at most the number of students. *)
Theorem course_distribution_counts_once (courses : list Course.t)
    (students : list Student.t) :
  NoDup (map Course.id courses) ->
  sum_list_with value (computeCourseDistribution courses students)
  = length (List.filter (enrolledInListed courses) students)
  ∧ (sum_list_with value (computeCourseDistribution courses students)
     <= length students)%nat.
Proof.
  intros Hnd.
  assert (Hsum : sum_list_with value (computeCourseDistribution courses students)
                 = length (List.filter (enrolledInListed courses) students)).
  { rewrite course_distribution_sum.
    induction courses as [|course courses IH].
    - cbn. induction students as [|s students IHs]; [reflexivity | exact IHs].
    - cbn [map] in Hnd. apply NoDup_cons in Hnd as [Hfresh Hnd].
      cbn [sum_list_with]. rewrite (IH Hnd), <- enrolledIn_count.
      destruct (two_filters_bound (enrolledIn course)
                  (enrolledInListed courses)
                  (List.filter (enrolledInListed (course :: courses)) students))
        as [_ Heq].
      { intros s Hc Hl. apply existsb_exists in Hl as (c' & Hc' & Hs').
        apply Hfresh. rewrite (enrolledIn_same_id _ _ _ Hc Hs').
        apply list_elem_of_In, in_map, Hc'. }
      rewrite <- Heq.
      + rewrite !filter_filter_implied; [reflexivity| |];
          intros s Hs; unfold enrolledInListed in *; cbn [existsb];
          rewrite Hs; auto using orb_true_r.
      + intros s Hs. apply list_elem_of_In, filter_In in Hs as [_ Hs].
        cbn [enrolledInListed existsb] in Hs. apply orb_true_iff in Hs. exact Hs. }
  split; [exact Hsum|]. rewrite Hsum. apply filter_length_le.
Qed.

(** X22. When all three fetches resolve and the students response is
    an object, the five aggregates are computed from the responses
    (a missing collection counting as empty) and stored, and the
    dashboard is rendered if no error was set before; an error set by
    an earlier fetch is never cleared, so its message is still rendered
    in place of the fresh statistics.  When the students response is
    [null], reading its [documents] throws: nothing is stored, the
    static error text is set and rendered. *)
Theorem fetch_render_outcomes (now : Z)
    (studentsResponse : option StudentsResponse)
    (coursesResponse : option (list Course.t))
    (attendanceResponse : option (list AttendanceRecord.t))
    (s : State) :
  let s' := fetchStatistics LocalTZA Date_parse now
              (Resolved studentsResponse) (Resolved coursesResponse)
              (Resolved attendanceResponse) s in
  match studentsResponse with
  | Some response =>
      let students := or_default (documents response) [] in
      let courses := or_default coursesResponse [] in
      let attendance := or_default attendanceResponse [] in
      let fresh :=
        mkStats (length students) (length courses)
                (computeTodaysAttendance LocalTZA Date_parse now attendance)
                (computeCourseDistribution courses students)
                (computeStatusDistribution students) in
      stats s' = Some fresh
      ∧ (error s = None -> render s' = Dashboard (Some fresh))
      ∧ (∀ text, error s = Some text -> text ≠ "" ->
           render s' = ErrorMessage text)
  | None =>
      stats s' = stats s
      ∧ error s' = Some errorText
      ∧ render s' = ErrorMessage errorText
  end.
Proof.
  cbv zeta. unfold fetchStatistics, render, computeStats.
  cbn [Promise_all]. destruct studentsResponse as [response|];
    cbn [stats loading error].
  - split; [reflexivity|]. split.
    + intros ->. reflexivity.
    + intros text -> Hne. apply String.eqb_neq in Hne. cbn [truthy].
      rewrite Hne. reflexivity.
  - repeat split; reflexivity.
Qed.

End AggregateFacts.

Section AggregateRuns.
Import Overview OverviewScenario.

Lemma status_distribution_partitions_witness :
  computeStatusDistribution students
    = Some [mkEntry "Active" 3; mkEntry "Inactive" 1]
  ∧ sum_list_with value [mkEntry "Active" 3; mkEntry "Inactive" 1]
    = length students.
Proof.
  assert (Hd : computeStatusDistribution students
               = Some [mkEntry "Active" 3; mkEntry "Inactive" 1])
    by (vm_compute; reflexivity).
  split; [exact Hd|].
  exact (proj1 (status_distribution_partitions students _ Hd)).
Defined.

Lemma course_distribution_counts_once_witness :
  NoDup (map Course.id [bca; olevel])
  ∧ sum_list_with value (computeCourseDistribution [bca; olevel] students)
    = 3%nat.
Proof.
  assert (Hnd : NoDup (map Course.id [bca; olevel])).
  { apply NoDup_cons. split; [|apply NoDup_singleton].
    intros Hin%list_elem_of_singleton. discriminate Hin. }
  split; [exact Hnd|].
  exact (proj1 (course_distribution_counts_once [bca; olevel] students Hnd)).
Defined.

(** Array-index names come first, in ascending order. *)
Example status_distribution_order :
  computeStatusDistribution
    [Student.mk "Active" None; Student.mk "10" None; Student.mk "2" None;
     Student.mk "02" None; Student.mk "Active" None]
  = Some [mkEntry "2" 1; mkEntry "10" 1; mkEntry "Active" 2; mkEntry "02" 1].
Proof. vm_compute. reflexivity. Qed.

Example status_distribution_inherited :
  computeStatusDistribution [Student.mk "toString" None] = None.
Proof. vm_compute. reflexivity. Qed.

End AggregateRuns.
